(** * Packing tracker: the duration and classification engine

    A shallow embedding of [src/app.py]: the header helpers [_norm] and
    [_suggest], and the processing routine [build_joined_df] (durations
    between scans, the join of scans and contents, the per-shipment
    aggregates, the order type and the status), followed by the properties
    proved about them.

    Conventions of the embedding.
    - Text is [string] (bytes); [upper] and [strip] follow Python on ASCII.
    - A missing value (NaN, NaT, None) is [None].
    - Timestamps are whole seconds in [Z]; the float columns that hold
      seconds (bonus, allowed time) are rationals [Q], so sums are exact.
    - A Python [dict] is a [gmap], a Python [set] is a [gset]. *)

From Stdlib Require Import ZArith QArith Qround Lia Lra.
From Stdlib Require Import Ascii String.
From Stdlib Require Import Sorting.Sorted Sorting.Permutation.
From stdpp Require Import base gmap sets list strings.

Local Open Scope Z_scope.
Local Open Scope string_scope.
Local Open Scope list_scope.

(** ** Helpers: [_norm] and [_suggest] *)

Module Str.

(** [str.upper] on one ASCII character: a..z go to A..Z. *)
Definition upper_ascii (c : ascii) : ascii :=
  let n := N_of_ascii c in
  if ((97 <=? n)%N && (n <=? 122)%N)%bool then ascii_of_N (n - 32) else c.

Fixpoint upper (s : string) : string :=
  match s with
  | EmptyString => EmptyString
  | String c s' => String (upper_ascii c) (upper s')
  end.

(** The ASCII characters [str.strip] removes: tab, line feed, vertical
    tab, form feed, carriage return, the four separators 28..31, space. *)
Definition is_space (c : ascii) : bool :=
  let n := N_of_ascii c in
  (((9 <=? n)%N && (n <=? 13)%N) || ((28 <=? n)%N && (n <=? 32)%N))%bool.

Fixpoint lstrip (s : string) : string :=
  match s with
  | EmptyString => EmptyString
  | String c s' => if is_space c then lstrip s' else s
  end.

Fixpoint rstrip (s : string) : string :=
  match s with
  | EmptyString => EmptyString
  | String c s' =>
      match rstrip s' with
      | EmptyString => if is_space c then EmptyString else String c EmptyString
      | t => String c t
      end
  end.

Definition strip (s : string) : string := rstrip (lstrip s).

End Str.

(** [_norm(s)]: upper case, then strip. *)
Definition _norm (s : string) : string := Str.strip (Str.upper s).

(** [cols_n.index(n)], when [n in cols_n]. *)
Fixpoint index_of (n : string) (l : list string) : option nat :=
  match l with
  | [] => None
  | x :: l' => if String.eqb x n then Some O else S <$> index_of n l'
  end.

(** The [for cand in candidates] loop of [_suggest]; [None] when the loop
    ends without a [return]. *)
Fixpoint _suggest_loop (cols cols_n candidates : list string) : option string :=
  match candidates with
  | [] => None
  | cand :: rest =>
      match index_of (_norm cand) cols_n with
      | Some i => cols !! i
      | None => _suggest_loop cols cols_n rest
      end
  end.

Definition _suggest (cols candidates : list string) : option string :=
  match _suggest_loop cols (_norm <$> cols) candidates with
  | Some c => Some c
  | None => head cols
  end.

(** A header matches a candidate when both have the same normal form. *)
Definition matches (c cand : string) : bool := String.eqb (_norm c) (_norm cand).

(** The reading of the header contract by header order: the first header,
    in the order of the header list, that matches any candidate; the first
    header when none does.  Stated from the contract, to be compared with
    [_suggest]. *)
Definition first_matching_header (cols candidates : list string) : option string :=
  match List.find (fun c => existsb (matches c) candidates) cols with
  | Some c => Some c
  | None => head cols
  end.

(** ** Generic pieces: orders with missing values last, a stable sort *)

Section Order.
Context {A : Type}.

(** [sort_values] puts missing values last ([na_position="last"]). *)
Definition opt_cmp (cmp : A -> A -> comparison) (x y : option A) : comparison :=
  match x, y with
  | Some a, Some b => cmp a b
  | Some _, None => Lt
  | None, Some _ => Gt
  | None, None => Eq
  end.

Definition leb_of (cmp : A -> A -> comparison) (x y : A) : bool :=
  match cmp x y with Gt => false | _ => true end.

(** Insertion before the first element that is not smaller: equal keys
    keep their order, as in the stable sort pandas does on several keys. *)
Fixpoint insert_by (leb : A -> A -> bool) (x : A) (l : list A) : list A :=
  match l with
  | [] => [x]
  | y :: l' => if leb x y then x :: y :: l' else y :: insert_by leb x l'
  end.

Definition sort_by (leb : A -> A -> bool) (l : list A) : list A :=
  foldr (insert_by leb) [] l.
End Order.

(** Lexicographic combination of two comparisons. *)
Definition lex (c1 c2 : comparison) : comparison :=
  match c1 with Eq => c2 | _ => c1 end.

Definition pair_cmp {A B : Type} (cA : A -> A -> comparison) (cB : B -> B -> comparison)
    (p q : A * B) : comparison :=
  lex (cA (fst p) (fst q)) (cB (snd p) (snd q)).

(** ** The tables *)

(** A cell of a numeric column as [pd.to_numeric(..., errors="coerce")]
    sees it: a number (or text that reads as that number), any other text,
    or an empty cell. *)
Inductive num_cell : Type :=
| CNum (q : Q)
| CText (s : string)
| CBlank.

(** The scan table after the header mapping.  [TANGGAL_SCAN] and
    [JAM_SCAN] hold what [pd.to_datetime(..., errors="coerce")] made of the
    cells: seconds since the epoch, seconds since midnight, [None] for NaT.
    [NO_RESI] holds [astype(str)] of the cell, not yet stripped. *)
Module Resi.
Record row : Type := mk {
  TANGGAL_SCAN : option Z;
  JAM_SCAN : option Z;
  NAMA : option string;
  NO_RESI : string
}.
End Resi.

(** The contents table after the header mapping, cells as read. *)
Module SkuRaw.
Record row : Type := mk {
  NO_RESI : string;
  SKU : string;
  QTY : num_cell
}.
End SkuRaw.

(** The contents table after lines 67-68. *)
Module Sku.
Record row : Type := mk {
  NO_RESI : string;
  SKU : string;
  QTY : Z
}.
End Sku.

(** A scan row with its duration columns (lines 107-108). *)
Module Timed.
Record row : Type := mk {
  scan : Resi.row;
  DURASI_SEC : Z;
  DURASI : Z
}.
Definition NO_RESI (t : row) : string := Resi.NO_RESI (scan t).
End Timed.

(** A row of the joined frame [df] (line 113). *)
Module Joined.
Definition row : Type := (Timed.row * Sku.row)%type.
Definition NO_RESI (j : row) : string := Timed.NO_RESI (fst j).
Definition DURASI_SEC (j : row) : Z := Timed.DURASI_SEC (fst j).
Definition QTY (j : row) : Z := Sku.QTY (snd j).
(** line 114 *)
Definition SKU_NORM (j : row) : string := _norm (Sku.SKU (snd j)).
End Joined.

(** A row of [agg] (lines 127-144). *)
Module Agg.
Record row : Type := mk {
  NO_RESI : string;
  SKU_UNIK : option Z;
  QTY_TOTAL : Z;
  ONLY_SKU_NORM : option string;
  DURASI_PER_RESI_SEC : option Z;
  BONUS_SEC : Q;
  PESANAN_RES : string;
  STATUS_RES : string
}.
End Agg.

(** A row of the returned frame: the preferred columns of line 151.
    [DURASI_SEC] and [SKU_NORM] are dropped at line 149. *)
Module Out.
Record row : Type := mk {
  TANGGAL_SCAN : option Z;
  JAM_SCAN : option Z;
  NAMA : option string;
  NO_RESI : string;
  PESANAN : option string;
  STATUS : option string;
  DURASI : Z;
  SKU : string;
  QTY : Z
}.
End Out.

(** ** Ingestion (lines 66-68) *)

Definition to_numeric (c : num_cell) : option Q :=
  match c with CNum q => Some q | CText _ => None | CBlank => None end.

(** [astype(int)] on a float: truncation toward zero. *)
Definition astype_int (q : Q) : Z := Z.quot (Qnum q) (Z.pos (Qden q)).

(** [pd.to_numeric(col, errors="coerce").fillna(0).astype(int)] *)
Definition coerce_qty (c : num_cell) : Z := astype_int (default 0%Q (to_numeric c)).

Definition clean_resi (r : Resi.row) : Resi.row :=
  Resi.mk (Resi.TANGGAL_SCAN r) (Resi.JAM_SCAN r) (Resi.NAMA r) (Str.strip (Resi.NO_RESI r)).

Definition clean_sku (r : SkuRaw.row) : Sku.row :=
  Sku.mk (Str.strip (SkuRaw.NO_RESI r)) (SkuRaw.SKU r) (coerce_qty (SkuRaw.QTY r)).

(** ** Lookup tables (lines 72-95) *)

Definition special_set_norm_default : gset string :=
  list_to_set (_norm <$> ["C222-AK328-2"; "C222-AK328-8"; "C222-AK328-7";
                          "C222-AK328-1"; "C222-AK328-5"]).

Definition handling_map_norm_default : gmap string Q :=
  {[ _norm "BM-AKS28-1" := 60%Q ]}.

(** The argument is the chosen column of the optional file, [None] when no
    file was given; a cell is [None] when empty ([dropna]). *)
Definition read_special_set (b : option (list (option string))) : gset string :=
  match b with
  | None => special_set_norm_default
  | Some col => list_to_set (_norm <$> omap id col)
  end.

(** [dict(d[["_SKU_NORM","_BONUS"]].values)]: a later row overrides an
    earlier one with the same code. *)
Definition read_handling_map (b : option (list (string * num_cell))) : gmap string Q :=
  match b with
  | None => handling_map_norm_default
  | Some rows =>
      foldl (fun m kv => <[ _norm (fst kv) := default 0%Q (to_numeric (snd kv)) ]> m) ∅ rows
  end.

(** ** Durations between scans (lines 98-108) *)

(** [dt.normalize()]: midnight of the same day. *)
Definition normalize (t : Z) : Z := 86400 * (t / 86400).

Definition TGL_NORM (r : Resi.row) : option Z := normalize <$> Resi.TANGGAL_SCAN r.

(** Line 103: the date of [TGL_NORM] and the time of [JAM SCAN] put
    together; NaT when either is missing. *)
Definition SCAN_DT (r : Resi.row) : option Z :=
  match TGL_NORM r, Resi.JAM_SCAN r with
  | Some d, Some j => Some (d + j)
  | _, _ => None
  end.

Definition sort_key (r : Resi.row) : option string * option Z * option Z :=
  (Resi.NAMA r, TGL_NORM r, SCAN_DT r).

(** Several sort keys: the first decides, the next ones break ties. *)
Definition key_cmp : option string * option Z * option Z ->
                     option string * option Z * option Z -> comparison :=
  pair_cmp (pair_cmp (opt_cmp String.compare) (opt_cmp Z.compare)) (opt_cmp Z.compare).

Definition row_leb (r1 r2 : Resi.row) : bool := leb_of key_cmp (sort_key r1) (sort_key r2).

(** Line 105: [df_resi.sort_values(["NAMA","TGL_NORM","SCAN_DT"])]. *)
Definition sort_values (df : list Resi.row) : list Resi.row := sort_by row_leb df.

(** The key of [groupby(["NAMA","TGL_NORM"])]; a row with a missing key
    column belongs to no group (pandas drops it, [dropna=True]). *)
Definition group_key (r : Resi.row) : option (string * Z) :=
  match Resi.NAMA r, TGL_NORM r with
  | Some n, Some d => Some (n, d)
  | _, _ => None
  end.

Definition in_group (k : string * Z) (r : Resi.row) : bool :=
  bool_decide (group_key r = Some k).

(** [groupby(...)["SCAN_DT"].shift(-1)] at a row followed by [rest]: the
    [SCAN_DT] of the next row of the same group, NaT when there is none. *)
Definition SCAN_NEXT (r : Resi.row) (rest : list Resi.row) : option Z :=
  match group_key r with
  | Some k =>
      match List.find (in_group k) rest with
      | Some r' => SCAN_DT r'
      | None => None
      end
  | None => None
  end.

(** [(a - b).dt.total_seconds()]: NaN when either side is NaT. *)
Definition total_seconds_between (a b : option Z) : option Z :=
  match a, b with
  | Some x, Some y => Some (x - y)
  | _, _ => None
  end.

Definition fillna0 (x : option Z) : Z := default 0 x.

Definition clip_lower0 (z : Z) : Z := Z.max z 0.

(** Line 107 at one row. *)
Definition duration_sec (r : Resi.row) (rest : list Resi.row) : Z :=
  clip_lower0 (fillna0 (total_seconds_between (SCAN_NEXT r rest) (SCAN_DT r))).

(** Lines 106-108 over the sorted frame; line 108 is [// 60]. *)
Fixpoint add_durations (df : list Resi.row) : list Timed.row :=
  match df with
  | [] => []
  | r :: rest =>
      let d := duration_sec r rest in
      Timed.mk r d (d / 60) :: add_durations rest
  end.

(** ** Join (line 113) *)

(** [pd.merge(left, right, on="NO RESI", how="inner")]: every pair of a
    left row and a right row with the same key, in the order of the left
    rows. *)
Definition merge_inner (left : list Timed.row) (right : list Sku.row) : list Joined.row :=
  l ← left; (fun r => (l, r)) <$> filter (fun r => Sku.NO_RESI r = Timed.NO_RESI l) right.

(** ** Aggregates per shipment (lines 117-130) *)

Definition group_of (k : string) (df : list Joined.row) : list Joined.row :=
  filter (fun j => Joined.NO_RESI j = k) df.

(** [set(s)] of the [SKU_NORM] column of a group. *)
Definition sku_set (g : list Joined.row) : gset string :=
  list_to_set (Joined.SKU_NORM <$> g).

(** [nunique()] *)
Definition sku_unik (g : list Joined.row) : Z := Z.of_nat (size (sku_set g)).

(** [sum()] of QTY *)
Definition qty_total (g : list Joined.row) : Z := foldr Z.add 0 (Joined.QTY <$> g).

(** [next(iter(set(s))) if len(set(s))==1 else None] *)
Definition only_sku_norm (g : list Joined.row) : option string :=
  if decide (size (sku_set g) = 1%nat) then head (elements (sku_set g)) else None.

(** [first()] of DURASI_SEC: the value of the first row of the group. *)
Definition dur_resi_sec (g : list Joined.row) : option Z := head (Joined.DURASI_SEC <$> g).

(** [sum(...)] of Python: from 0, left to right. *)
Definition py_sum (l : list Q) : Q := foldl Qplus 0%Q l.

(** [handling_map_norm.get(x, 0.0)] *)
Definition bonus_of (handling_map_norm : gmap string Q) (x : string) : Q :=
  default 0%Q (handling_map_norm !! x).

(** Lines 122-123. *)
Definition sum_bonus (handling_map_norm : gmap string Q) (sec_series : list string) : Q :=
  py_sum (bonus_of handling_map_norm <$> elements (list_to_set sec_series : gset string)).

(** ** Order type and status (lines 133-144) *)

(** [sku_u] is [None] when [pd.isna(sku_u)]. *)
Definition classify (special_set_norm : gset string)
    (sku_u : option Z) (qty_t : Z) (only_norm : option string) : string :=
  match sku_u with
  | None => "Tidak Diketahui"
  | Some u =>
      if (u =? 1)%Z then
        match only_norm with
        | Some c => if decide (c ∈ special_set_norm) then "Spesial" else "Satuan"
        | None => "Satuan"
        end
      else if (qty_t <=? 3)%Z then "Biasa" else "Campuran"
  end.

Definition actual_sec (dur : option Z) : Q := inject_Z (fillna0 dur).

Definition allowed_sec (qty_t : Z) (bonus : Q) : Q := (inject_Z qty_t * 30 + bonus)%Q.

(** Line 144. *)
Definition status_of (a b : Q) : string := if Qle_bool a b then "OK" else "LAMBAT".

(** Group keys of [groupby("NO RESI")]: the distinct keys, sorted. *)
Definition group_keys (df : list Joined.row) : list string :=
  sort_by String.leb (remove_dups (Joined.NO_RESI <$> df)).

Definition agg_row (special_set_norm : gset string) (handling_map_norm : gmap string Q)
    (df : list Joined.row) (k : string) : Agg.row :=
  let g := group_of k df in
  let su := Some (sku_unik g) in
  let qt := qty_total g in
  let osku := only_sku_norm g in
  let dur := dur_resi_sec g in
  let bonus := sum_bonus handling_map_norm (Joined.SKU_NORM <$> g) in
  Agg.mk k su qt osku dur bonus
         (classify special_set_norm su qt osku)
         (status_of (actual_sec dur) (allowed_sec qt bonus)).

Definition aggregate (special_set_norm : gset string) (handling_map_norm : gmap string Q)
    (df : list Joined.row) : list Agg.row :=
  agg_row special_set_norm handling_map_norm df <$> group_keys df.

(** ** Map back and projection (lines 147-153) *)

(** The left merge of line 147 at one row: the first [agg] row with the
    same key, missing values when there is none; then the projection. *)
Definition project (agg : list Agg.row) (j : Joined.row) : Out.row :=
  let a := List.find (fun a => bool_decide (Agg.NO_RESI a = Joined.NO_RESI j)) agg in
  let s := Timed.scan (fst j) in
  Out.mk (Resi.TANGGAL_SCAN s) (Resi.JAM_SCAN s) (Resi.NAMA s) (Resi.NO_RESI s)
         (Agg.PESANAN_RES <$> a) (Agg.STATUS_RES <$> a)
         (Timed.DURASI (fst j)) (Sku.SKU (snd j)) (Sku.QTY (snd j)).

(** The frame [df_resi] after line 105, and after line 110. *)
Definition sorted_resi (resi : list Resi.row) : list Resi.row :=
  sort_values (clean_resi <$> resi).

Definition timed_resi (resi : list Resi.row) : list Timed.row :=
  add_durations (sorted_resi resi).

(** The frame [df] after line 113. *)
Definition joined_df (resi : list Resi.row) (sku : list SkuRaw.row) : list Joined.row :=
  merge_inner (timed_resi resi) (clean_sku <$> sku).

(** [build_joined_df] on tables whose headers are mapped. *)
Definition build_joined_df (resi : list Resi.row) (sku : list SkuRaw.row)
    (special : option (list (option string)))
    (handling : option (list (string * num_cell))) : list Out.row :=
  let special_set_norm := read_special_set special in
  let handling_map_norm := read_handling_map handling in
  let df := joined_df resi sku in
  let agg := aggregate special_set_norm handling_map_norm df in
  project agg <$> df.

(** ** Filters and metrics of the page (lines 239-250) *)

(** Lines 240-244: the date, the chosen names (when any), the order type
    (unless "Semua"). *)
Definition keep_row (sel_date : Z) (sel_names : list string) (jenis : string)
    (r : Out.row) : bool :=
  bool_decide ((fun t => t / 86400) <$> Out.TANGGAL_SCAN r = Some sel_date)
  && (match sel_names with
      | [] => true
      | _ => bool_decide (Out.NAMA r ∈ (Some <$> sel_names))
      end)
  && (if String.eqb jenis "Semua" then true
      else bool_decide (Out.PESANAN r = Some jenis)).

(** [drop_duplicates(subset="NO RESI")]: the first row of each key. *)
Fixpoint drop_duplicates_from (seen : gset string) (df : list Out.row) : list Out.row :=
  match df with
  | [] => []
  | r :: rest =>
      if decide (Out.NO_RESI r ∈ seen) then drop_duplicates_from seen rest
      else r :: drop_duplicates_from ({[ Out.NO_RESI r ]} ∪ seen) rest
  end.

Definition drop_duplicates (df : list Out.row) : list Out.row :=
  drop_duplicates_from ∅ df.




(** Lines 239-247: the filtered frame, one row per shipment. *)
Definition resi_level (sel_date : Z) (sel_names : list string) (jenis : string)
    (df_base : list Out.row) : list Out.row :=
  drop_duplicates (filter (fun r => keep_row sel_date sel_names jenis r = true) df_base).

(** ** The columns of [build_joined_df]

    The same routine, followed on the column labels only: which label each
    line reads, adds, renames or drops, and where a missing label raises.
    The labels of one frame are taken to be distinct. *)

(** A raised exception: its class and its argument. *)
Record exn : Type := mk_exn { exn_class : string; exn_arg : string }.

Definition KeyError (k : string) : exn := mk_exn "KeyError" k.

(** The steps of the routine, in the order of the source. *)
Inductive stage : Type :=
| StHeaders      (* lines 47-64: read, upper-case and rename the headers *)
| StKeys         (* lines 66-67: NO RESI as stripped text *)
| StQty          (* line 68: QTY as integer *)
| StLookups      (* lines 70-95: special set and handling map *)
| StTimestamps   (* lines 98-103: TGL_NORM and SCAN_DT *)
| StDurations    (* lines 105-110: sort, SCAN_NEXT, DURASI_SEC, DURASI *)
| StJoin         (* line 113 *)
| StSkuNorm      (* line 114 *)
| StAggregate    (* lines 117-130 *)
| StClassify     (* lines 133-144 *)
| StProject.     (* lines 147-153 *)

(** A computation that logs the steps it has finished and may raise. *)
Definition M (A : Type) : Type := list stage -> list stage * (exn + A).

#[export] Instance M_ret : MRet M := fun A a log => (log, inr a).

#[export] Instance M_bind : MBind M := fun A B f m log =>
  match m log with
  | (log', inr a) => f a log'
  | (log', inl e) => (log', inl e)
  end.

Definition raise {A : Type} (e : exn) : M A := fun log => (log, inl e).

Definition finished (s : stage) : M unit := fun log => (log ++ [s], inr tt).

Definition run {A : Type} (m : M A) : list stage * (exn + A) := m [].

(** [df.columns.str.strip().str.upper()] (lines 51-52) *)
Definition strip_upper (cols : list string) : list string :=
  (fun c => Str.upper (Str.strip c)) <$> cols.

(** A dict display [{k1: v1, k2: v2, ...}]: a later binding of the same
    key replaces the earlier one. *)
Definition dict_of (kvs : list (string * string)) : gmap string string :=
  foldl (fun m kv => <[ fst kv := snd kv ]> m) ∅ kvs.

(** [df.rename(columns=d)]: labels absent from [d] stay, keys of [d]
    absent from the frame are ignored. *)
Definition rename (d : gmap string string) (cols : list string) : list string :=
  (fun c => default c (d !! c)) <$> cols.

(** [df[c]] for reading: [KeyError(c)] when the label is absent. *)
Definition getitem (cols : list string) (c : string) : M unit :=
  if decide (c ∈ cols) then mret tt else raise (KeyError c).

(** [df.groupby(...)[c]] *)
Definition groupby_getitem (cols : list string) (c : string) : M unit :=
  if decide (c ∈ cols) then mret tt else raise (KeyError ("Column not found: " +:+ c)).

(** [df[c] = ...]: replaces the column, or appends it. *)
Definition setitem (c : string) (cols : list string) : list string :=
  if decide (c ∈ cols) then cols else cols ++ [c].

(** [df.drop(columns=ds, errors="ignore")] *)
Definition drop_columns (ds : list string) (cols : list string) : list string :=
  filter (fun c => c ∉ ds) cols.

(** The labels of [pd.merge(left, right, on=key)]: the left labels, then
    the right labels without the key; a label other than the key that is
    on both sides gets the suffix [_x] on the left and [_y] on the right. *)
Definition merge_columns (key : string) (left right : list string) : list string :=
  ((fun c => if decide (c ≠ key ∧ c ∈ right) then c +:+ "_x" else c) <$> left)
  ++ ((fun c => if decide (c ∈ left) then c +:+ "_y" else c) <$> filter (fun c => c ≠ key) right).

Definition preferred : list string :=
  ["TANGGAL SCAN"; "JAM SCAN"; "NAMA"; "NO RESI"; "PESANAN"; "STATUS"; "DURASI"; "SKU"; "QTY"].

Definition mapping : Type := (string * string * string * string * string * string * string)%type.

Definition resi_columns (mapping_tuple : mapping) (resi_cols : list string) : list string :=
  let '(resi_tgl, resi_jam, resi_nama, resi_no, _, _, _) := mapping_tuple in
  rename (dict_of [(resi_tgl, "TANGGAL SCAN"); (resi_jam, "JAM SCAN");
                   (resi_nama, "NAMA"); (resi_no, "NO RESI")])
         (strip_upper resi_cols).

Definition sku_columns (mapping_tuple : mapping) (sku_cols : list string) : list string :=
  let '(_, _, _, _, sku_no, sku_sku, sku_qty) := mapping_tuple in
  rename (dict_of [(sku_no, "NO RESI"); (sku_sku, "SKU"); (sku_qty, "QTY")])
         (strip_upper sku_cols).

(** The labels of the frame returned by [build_joined_df], or the
    exception raised, with the steps finished until then. *)
Definition build_joined_df_columns (resi_cols sku_cols : list string)
    (mapping_tuple : mapping) : M (list string) :=
  let df_resi := resi_columns mapping_tuple resi_cols in
  let df_sku := sku_columns mapping_tuple sku_cols in
  finished StHeaders ;;
  getitem df_resi "NO RESI" ;;
  getitem df_sku "NO RESI" ;;
  finished StKeys ;;
  getitem df_sku "QTY" ;;
  finished StQty ;;
  finished StLookups ;;
  getitem df_resi "TANGGAL SCAN" ;;
  getitem df_resi "JAM SCAN" ;;
  let df_resi := setitem "SCAN_DT" (setitem "TGL_NORM" df_resi) in
  finished StTimestamps ;;
  getitem df_resi "NAMA" ;;
  let df_resi := setitem "DURASI" (setitem "DURASI_SEC" (setitem "SCAN_NEXT" df_resi)) in
  let df_resi := drop_columns ["SCAN_NEXT"; "TGL_NORM"; "SCAN_DT"] df_resi in
  finished StDurations ;;
  let df := merge_columns "NO RESI" df_resi df_sku in
  finished StJoin ;;
  getitem df "SKU" ;;
  let df := setitem "SKU_NORM" df in
  finished StSkuNorm ;;
  groupby_getitem df "QTY" ;;
  groupby_getitem df "DURASI_SEC" ;;
  finished StAggregate ;;
  finished StClassify ;;
  let df := merge_columns "NO RESI" df ["NO RESI"; "PESANAN_RES"; "STATUS_RES"] in
  let df := rename (dict_of [("PESANAN_RES", "PESANAN"); ("STATUS_RES", "STATUS")]) df in
  let df := drop_columns ["DURASI_SEC"; "SKU_NORM"] df in
  let cols := filter (fun c => c ∈ df) preferred ++ filter (fun c => c ∉ preferred) df in
  finished StProject ;;
  mret cols.

(** ** The page: default mapping and summary (lines 182-208, 263-270) *)

(** Lines 182-192 and 208 with the select boxes left at their defaults:
    the headers are stripped and upper-cased, and each of the seven fields
    gets the suggestion for its candidates.  [None] when a table has no
    header ([cols.index(None)] raises). *)
Definition default_mapping (resi_raw sku_raw : list string) : option mapping :=
  let resi_cols := strip_upper resi_raw in
  let sku_cols := strip_upper sku_raw in
  resi_tgl ← _suggest resi_cols ["TANGGAL SCAN"; "Tgl scan"];
  resi_jam ← _suggest resi_cols ["JAM SCAN"; "Jam scan"];
  resi_nama ← _suggest resi_cols ["NAMA"; "Nama"];
  resi_no ← _suggest resi_cols ["NO RESI"; "No Resi"];
  sku_no ← _suggest sku_cols ["NO RESI"; "NO_RESI"];
  sku_sku ← _suggest sku_cols ["SKU"; "KODE SKU"];
  sku_qty ← _suggest sku_cols ["QTY"; "KUANTITAS"];
  Some (resi_tgl, resi_jam, resi_nama, resi_no, sku_no, sku_sku, sku_qty).

(** [pesanan_counts.get(v, 0)] of [value_counts] on the PESANAN column. *)
Definition pesanan_count (v : string) (resi_level : list Out.row) : nat :=
  length (filter (fun r => Out.PESANAN r = Some v) resi_level).

(** A text made of characters that [strip] removes. *)
Fixpoint all_space (s : string) : bool :=
  match s with
  | EmptyString => true
  | String c s' => Str.is_space c && all_space s'
  end.

(** ** Notions used in the statements *)

(** No header has the normal form of [cand]. *)
Definition no_match (cols : list string) (cand : string) : Prop :=
  Forall (fun c => _norm c ≠ _norm cand) cols.

(** A comparison that decides a total order. *)
Class OrderCmp {A : Type} (cmp : A -> A -> comparison) : Prop := {
  cmp_eq : forall x y, cmp x y = Eq <-> x = y;
  cmp_opp : forall x y, cmp y x = CompOpp (cmp x y);
  cmp_lt_trans : forall x y z, cmp x y = Lt -> cmp y z = Lt -> cmp x z = Lt
}.

(** The order of the sorted frame. *)
Definition row_le (r1 r2 : Resi.row) : Prop := row_leb r1 r2 = true.

(** The row of the frame after line 108 for a row followed by [rest]. *)
Definition timed_of (r : Resi.row) (rest : list Resi.row) : Timed.row :=
  Timed.mk r (duration_sec r rest) (duration_sec r rest / 60).


(** The labels of [df_resi] after line 110, of [df] after line 114, and
    of the returned frame. *)
Definition resi_after_durations (R : list string) : list string :=
  drop_columns ["SCAN_NEXT"; "TGL_NORM"; "SCAN_DT"]
    (setitem "DURASI" (setitem "DURASI_SEC" (setitem "SCAN_NEXT"
       (setitem "SCAN_DT" (setitem "TGL_NORM" R))))).

Definition joined_columns (R S : list string) : list string :=
  setitem "SKU_NORM" (merge_columns "NO RESI" (resi_after_durations R) S).

Definition projected_columns (R S : list string) : list string :=
  drop_columns ["DURASI_SEC"; "SKU_NORM"]
    (rename (dict_of [("PESANAN_RES", "PESANAN"); ("STATUS_RES", "STATUS")])
       (merge_columns "NO RESI" (joined_columns R S) ["NO RESI"; "PESANAN_RES"; "STATUS_RES"])).

Definition output_columns (R S : list string) : list string :=
  filter (fun c => c ∈ projected_columns R S) preferred
  ++ filter (fun c => c ∉ preferred) (projected_columns R S).

Definition all_stages : list stage :=
  [StHeaders; StKeys; StQty; StLookups; StTimestamps; StDurations; StJoin;
   StSkuNorm; StAggregate; StClassify; StProject].

(** ** Worked tables

    Three scans of one operator on one day and the contents of the three
    shipments, used to run the routine on concrete rows. *)

Definition resi_demo : list Resi.row :=
  [Resi.mk (Some 86400) (Some 32400) (Some "ANI") " A1 ";
   Resi.mk (Some 86400) (Some 32700) (Some "ANI") "A2";
   Resi.mk (Some 86400) (Some 32000) (Some "ANI") "A4"].

Definition sku_demo : list SkuRaw.row :=
  [SkuRaw.mk "A1" "x1" (CNum 5);
   SkuRaw.mk "A2" "y1" (CNum 1);
   SkuRaw.mk "A2" "y2" (CNum 2);
   SkuRaw.mk "A4" "bm-aks28-1" (CNum 2)].

Definition df_demo : list Joined.row := joined_df resi_demo sku_demo.

Definition agg_demo (k : string) : Agg.row :=
  agg_row special_set_norm_default handling_map_norm_default df_demo k.

(** * Properties *)

(** ** The header helpers *)

Example norm_ex : _norm "  No Resi " = "NO RESI".
Proof. reflexivity. Qed.

Example suggest_ex1 : _suggest [" qty "; "SKU"] ["SKU"; "KODE SKU"] = Some "SKU".
Proof. reflexivity. Qed.

Example suggest_ex2 : _suggest ["A"; "B"] ["QTY"] = Some "A".
Proof. reflexivity. Qed.

Example suggest_ex3 : _suggest [] ["QTY"] = None.
Proof. reflexivity. Qed.

Lemma index_of_fmap_Some (f : string -> string) n cols i :
  index_of n (f <$> cols) = Some i ->
  exists h1 c h2,
    cols = h1 ++ c :: h2 /\ f c = n /\ Forall (fun c' => f c' ≠ n) h1 /\
    cols !! i = Some c.
Proof.
  revert i. induction cols as [|x cols IH]; intros i; [discriminate|].
  rewrite fmap_cons. cbn [index_of].
  destruct (String.eqb_spec (f x) n) as [Heq|Hne].
  - intros [= <-]. exists [], x, cols. repeat split; auto.
  - destruct (index_of n (f <$> cols)) as [j|]; [|discriminate].
    intros [= <-]. destruct (IH j eq_refl) as (h1 & c & h2 & -> & Hc & Hh & Hl).
    exists (x :: h1), c, h2. repeat split; auto.
Qed.

Lemma index_of_fmap_None (f : string -> string) n cols :
  index_of n (f <$> cols) = None -> Forall (fun c => f c ≠ n) cols.
Proof.
  induction cols as [|x cols IH]; [constructor|].
  rewrite fmap_cons. cbn [index_of].
  destruct (String.eqb_spec (f x) n) as [Heq|Hne]; [discriminate|].
  destruct (index_of n (f <$> cols)); [discriminate|].
  intros _. constructor; auto.
Qed.

Lemma suggest_cons_no_match cols cand rest :
  index_of (_norm cand) (_norm <$> cols) = None ->
  _suggest cols (cand :: rest) = _suggest cols rest.
Proof. unfold _suggest; simpl. intros ->. reflexivity. Qed.

(** C9, as stated, read by header order: it fails when two candidates
    match two different headers and the later candidate's header comes
    first.  [_suggest(["KUANTITAS","QTY"], ["QTY","KUANTITAS"])] returns
    "QTY", while the first header matching a candidate is "KUANTITAS". *)
Lemma suggest_not_first_matching_header :
  ~ (forall cols candidates : list string,
       cols ≠ [] -> _suggest cols candidates = first_matching_header cols candidates).
Proof.
  intros H.
  specialize (H ["KUANTITAS"; "QTY"] ["QTY"; "KUANTITAS"]).
  vm_compute in H. specialize (H ltac:(discriminate)). discriminate H.
Qed.

(** C9, amended: the candidates are tried in their order; for the first
    candidate that some header matches, [_suggest] returns the first header
    matching that candidate; when no candidate is matched by any header it
    returns the first header ([None] on an empty header list). *)
Theorem suggest_candidate_priority (cols candidates : list string) :
  (exists pre cand post h1 c h2,
      candidates = pre ++ cand :: post /\
      Forall (no_match cols) pre /\
      cols = h1 ++ c :: h2 /\
      _norm c = _norm cand /\
      Forall (fun c' => _norm c' ≠ _norm cand) h1 /\
      _suggest cols candidates = Some c)
  \/ (Forall (no_match cols) candidates /\ _suggest cols candidates = head cols).
Proof.
  induction candidates as [|cand rest IH].
  - right. split; [constructor|reflexivity].
  - destruct (index_of (_norm cand) (_norm <$> cols)) as [i|] eqn:Hi.
    + left. destruct (index_of_fmap_Some _ _ _ _ Hi) as (h1 & c & h2 & Hc & Hn & Hh & Hl).
      exists [], cand, rest, h1, c, h2. repeat split; auto.
      unfold _suggest; simpl. rewrite Hi, Hl. reflexivity.
    + pose proof (index_of_fmap_None _ _ _ Hi) as Hno.
      rewrite (suggest_cons_no_match _ _ _ Hi).
      destruct IH as [(pre & cd & post & h1 & c & h2 & -> & Hp & Hc & Hn & Hh & Hs)|[Hall Hs]].
      * left. exists (cand :: pre), cd, post, h1, c, h2. repeat split; auto.
      * right. split; auto.
Qed.

(** ** Orders and the sort *)

#[export] Instance Z_OrderCmp : OrderCmp Z.compare.
Proof.
  split.
  - intros x y. apply Z.compare_eq_iff.
  - intros x y. apply Z.compare_antisym.
  - intros x y z. rewrite !Z.compare_lt_iff. lia.
Qed.

Lemma ascii_compare_refl (a : ascii) : Ascii.compare a a = Eq.
Proof. unfold Ascii.compare. apply N.compare_refl. Qed.

Lemma ascii_compare_lt_trans (a b c : ascii) :
  Ascii.compare a b = Lt -> Ascii.compare b c = Lt -> Ascii.compare a c = Lt.
Proof. unfold Ascii.compare. rewrite !N.compare_lt_iff. lia. Qed.

Lemma string_compare_refl (s : string) : String.compare s s = Eq.
Proof. induction s as [|a s IH]; simpl; [reflexivity|]. now rewrite ascii_compare_refl. Qed.

Lemma string_compare_lt_trans (x y z : string) :
  String.compare x y = Lt -> String.compare y z = Lt -> String.compare x z = Lt.
Proof.
  revert y z. induction x as [|a x IH]; intros [|b y] [|c z]; simpl; try congruence.
  destruct (Ascii.compare a b) eqn:Hab; try discriminate;
    destruct (Ascii.compare b c) eqn:Hbc; try discriminate; intros Hxy Hyz.
  - apply Ascii.compare_eq_iff in Hab, Hbc. subst. rewrite ascii_compare_refl. eauto.
  - apply Ascii.compare_eq_iff in Hab. subst. now rewrite Hbc.
  - apply Ascii.compare_eq_iff in Hbc. subst. now rewrite Hab.
  - now rewrite (ascii_compare_lt_trans _ _ _ Hab Hbc).
Qed.

#[export] Instance string_OrderCmp : OrderCmp String.compare.
Proof.
  split.
  - intros x y. split; [apply String.compare_eq_iff|intros ->; apply string_compare_refl].
  - intros x y. apply String.compare_antisym.
  - apply string_compare_lt_trans.
Qed.

#[export] Instance opt_OrderCmp {A : Type} (cmp : A -> A -> comparison) :
  OrderCmp cmp -> OrderCmp (opt_cmp cmp).
Proof.
  intros H. split.
  - intros [x|] [y|]; simpl; try (split; congruence).
    rewrite cmp_eq. split; congruence.
  - intros [x|] [y|]; simpl; auto using cmp_opp.
  - intros [x|] [y|] [z|]; simpl; try congruence. apply cmp_lt_trans.
Qed.

#[export] Instance pair_OrderCmp {A B : Type}
    (cA : A -> A -> comparison) (cB : B -> B -> comparison) :
  OrderCmp cA -> OrderCmp cB -> OrderCmp (pair_cmp cA cB).
Proof.
  intros HA HB. split.
  - intros [a1 b1] [a2 b2]. unfold pair_cmp, lex; simpl.
    destruct (cA a1 a2) eqn:Ha.
    + apply cmp_eq in Ha. subst. rewrite cmp_eq. split; congruence.
    + split; [discriminate|]. intros [= -> ->].
      rewrite (proj2 (cmp_eq a2 a2) eq_refl) in Ha. discriminate.
    + split; [discriminate|]. intros [= -> ->].
      rewrite (proj2 (cmp_eq a2 a2) eq_refl) in Ha. discriminate.
  - intros [a1 b1] [a2 b2]. unfold pair_cmp, lex; simpl.
    rewrite (cmp_opp (cmp:=cA) a1 a2). destruct (cA a1 a2); simpl; auto using cmp_opp.
  - intros [a1 b1] [a2 b2] [a3 b3]. unfold pair_cmp, lex; simpl.
    destruct (cA a1 a2) eqn:H12; try discriminate;
      destruct (cA a2 a3) eqn:H23; try discriminate; intros H1 H2.
    + apply cmp_eq in H12, H23. subst.
      rewrite (proj2 (cmp_eq a3 a3) eq_refl). eapply cmp_lt_trans; eauto.
    + apply cmp_eq in H12. subst. now rewrite H23.
    + apply cmp_eq in H23. subst. now rewrite H12.
    + now rewrite (cmp_lt_trans _ _ _ H12 H23).
Qed.

Section OrderFacts.
Context {A : Type} (cmp : A -> A -> comparison) `{!OrderCmp cmp}.

Lemma cmp_refl (x : A) : cmp x x = Eq.
Proof. now apply cmp_eq. Qed.

Lemma leb_of_total (x y : A) : leb_of cmp x y = true \/ leb_of cmp y x = true.
Proof.
  unfold leb_of. rewrite (cmp_opp x y). destruct (cmp x y); simpl; auto.
Qed.

Lemma leb_of_trans (x y z : A) :
  leb_of cmp x y = true -> leb_of cmp y z = true -> leb_of cmp x z = true.
Proof.
  unfold leb_of.
  destruct (cmp x y) eqn:Hxy; try discriminate;
    destruct (cmp y z) eqn:Hyz; try discriminate; intros _ _.
  - apply cmp_eq in Hxy, Hyz. subst. now rewrite cmp_refl.
  - apply cmp_eq in Hxy. subst. now rewrite Hyz.
  - apply cmp_eq in Hyz. subst. now rewrite Hxy.
  - now rewrite (cmp_lt_trans _ _ _ Hxy Hyz).
Qed.

Lemma leb_of_antisym (x y : A) :
  leb_of cmp x y = true -> leb_of cmp y x = true -> x = y.
Proof.
  unfold leb_of. rewrite (cmp_opp x y).
  destruct (cmp x y) eqn:Hxy; simpl; try discriminate.
  intros _ _. now apply cmp_eq.
Qed.

End OrderFacts.

Lemma leb_of_pair_fst {A B : Type} (cA : A -> A -> comparison) (cB : B -> B -> comparison)
    (p q : A * B) :
  leb_of (pair_cmp cA cB) p q = true -> leb_of cA (fst p) (fst q) = true.
Proof. unfold leb_of, pair_cmp, lex. destruct (cA (fst p) (fst q)); auto. Qed.

Lemma leb_of_pair_snd {A B : Type} (cA : A -> A -> comparison) (cB : B -> B -> comparison)
    `{!OrderCmp cA} (p q : A * B) :
  fst p = fst q ->
  leb_of (pair_cmp cA cB) p q = true -> leb_of cB (snd p) (snd q) = true.
Proof. unfold leb_of, pair_cmp, lex. intros ->. now rewrite cmp_refl. Qed.

Section SortFacts.
Context {A : Type} (leb : A -> A -> bool).

Lemma insert_by_Permutation (x : A) (l : list A) : insert_by leb x l ≡ₚ x :: l.
Proof.
  induction l as [|y l IH]; simpl; [reflexivity|].
  destruct (leb x y); [reflexivity|].
  rewrite IH. apply perm_swap.
Qed.

Lemma sort_by_Permutation (l : list A) : sort_by leb l ≡ₚ l.
Proof.
  induction l as [|x l IH]; simpl; [reflexivity|].
  unfold sort_by in *. simpl. rewrite insert_by_Permutation. now constructor.
Qed.

Hypothesis leb_total : forall x y, leb x y = true \/ leb y x = true.
Hypothesis leb_trans : forall x y z, leb x y = true -> leb y z = true -> leb x z = true.

Lemma insert_by_sorted (x : A) (l : list A) :
  StronglySorted (fun a b => leb a b = true) l ->
  StronglySorted (fun a b => leb a b = true) (insert_by leb x l).
Proof.
  induction 1 as [|y l Hs IH Hy]; simpl.
  - repeat constructor.
  - destruct (leb x y) eqn:Hxy.
    + constructor; [now constructor|].
      constructor; [assumption|].
      eapply Forall_impl; [exact Hy|]. intros z Hz. simpl in Hz. eauto.
    + constructor; [assumption|].
      rewrite insert_by_Permutation. constructor; [|assumption].
      destruct (leb_total x y); congruence.
Qed.

Lemma sort_by_sorted (l : list A) :
  StronglySorted (fun a b => leb a b = true) (sort_by leb l).
Proof.
  induction l as [|x l IH]; [constructor|].
  unfold sort_by in *. simpl. now apply insert_by_sorted.
Qed.

End SortFacts.

(** ** Durations: the sorted frame and its groups *)

Lemma sort_values_Permutation (df : list Resi.row) : sort_values df ≡ₚ df.
Proof. apply sort_by_Permutation. Qed.

Lemma sort_values_sorted (df : list Resi.row) : StronglySorted row_le (sort_values df).
Proof.
  apply sort_by_sorted; unfold row_leb.
  - intros x y. apply (leb_of_total key_cmp).
  - intros x y z. apply (leb_of_trans key_cmp).
Qed.

Lemma group_key_Some (r : Resi.row) (k : string * Z) :
  group_key r = Some k <-> fst (sort_key r) = (Some (fst k), Some (snd k)).
Proof.
  unfold group_key, sort_key; simpl. destruct k as [n d].
  destruct (Resi.NAMA r), (TGL_NORM r); simpl; split; congruence.
Qed.

(** In the sorted frame a row between two rows of one group is in it. *)
Lemma group_between (r1 r2 r3 : Resi.row) (k : string * Z) :
  row_le r1 r2 -> row_le r2 r3 ->
  group_key r1 = Some k -> group_key r3 = Some k -> group_key r2 = Some k.
Proof.
  unfold row_le, row_leb, key_cmp. intros H12 H23 H1 H3.
  apply leb_of_pair_fst in H12, H23.
  apply group_key_Some in H1, H3. apply group_key_Some.
  rewrite H1 in H12. rewrite H3 in H23.
  symmetry. eapply (leb_of_antisym _); eassumption.
Qed.

(** Within a group the sorted frame is ascending in [SCAN_DT], with the
    missing timestamps last. *)
Lemma group_ascending (r1 r2 : Resi.row) :
  row_le r1 r2 -> is_Some (group_key r1) -> group_key r1 = group_key r2 ->
  leb_of (opt_cmp Z.compare) (SCAN_DT r1) (SCAN_DT r2) = true.
Proof.
  unfold row_le, row_leb, key_cmp. intros H12 [k Hk] Heq.
  rewrite Hk in Heq. symmetry in Heq.
  apply group_key_Some in Hk, Heq.
  eapply (leb_of_pair_snd _ _ (sort_key r1) (sort_key r2)) in H12; [exact H12|congruence].
Qed.

(** In the sorted frame the next row of the group, when there is one, is
    the row that follows. *)
Lemma find_next_sorted (r : Resi.row) (rest : list Resi.row) (k : string * Z) :
  StronglySorted row_le (r :: rest) -> group_key r = Some k ->
  List.find (in_group k) rest =
    match rest with
    | r' :: _ => if in_group k r' then Some r' else None
    | [] => None
    end.
Proof.
  intros Hs Hk. destruct rest as [|r' rest]; [reflexivity|]. simpl.
  destruct (in_group k r') eqn:Hr'; [reflexivity|].
  destruct (List.find (in_group k) rest) as [r''|] eqn:Hf; [exfalso|reflexivity].
  apply find_some in Hf as [Hin Hg]. apply list_elem_of_In in Hin.
  apply StronglySorted_inv in Hs as [Hs Hall].
  apply StronglySorted_inv in Hs as [_ Hall'].
  apply Forall_inv in Hall.
  rewrite Forall_forall in Hall'. specialize (Hall' r'' Hin).
  unfold in_group in *. apply bool_decide_eq_true in Hg. apply bool_decide_eq_false in Hr'.
  apply Hr'. eapply group_between; eauto.
Qed.

Lemma StronglySorted_drop {A : Type} (R : A -> A -> Prop) (l : list A) (n : nat) :
  StronglySorted R l -> StronglySorted R (drop n l).
Proof.
  revert l. induction n as [|n IH]; intros l Hs; [now rewrite drop_0|].
  destruct l as [|x l]; [constructor|]. simpl.
  apply StronglySorted_inv in Hs as [Hs _]. auto.
Qed.

Lemma StronglySorted_lookup_lt {A : Type} (R : A -> A -> Prop) (l : list A) (i j : nat) x y :
  StronglySorted R l -> (i < j)%nat -> l !! i = Some x -> l !! j = Some y -> R x y.
Proof.
  intros Hs. revert i j. induction Hs as [|z l Hs IH Hz]; intros i j Hij Hi Hj.
  - rewrite lookup_nil in Hi. discriminate.
  - destruct j as [|j]; [lia|]. destruct i as [|i]; simpl in *.
    + injection Hi as <-. rewrite Forall_forall in Hz. apply Hz.
      eapply list_elem_of_lookup_2; eauto.
    + apply (IH i j); auto. lia.
Qed.

Lemma add_durations_lookup (df : list Resi.row) (i : nat) :
  add_durations df !! i = (fun r => timed_of r (drop (S i) df)) <$> df !! i.
Proof.
  revert i. induction df as [|r df IH]; intros i; [reflexivity|].
  destruct i as [|i]; simpl; [now rewrite drop_0|]. apply IH.
Qed.

Lemma add_durations_scan (df : list Resi.row) : Timed.scan <$> add_durations df = df.
Proof. induction df as [|r df IH]; simpl; [reflexivity|]. now f_equal. Qed.

Lemma add_durations_elem (df : list Resi.row) (t : Timed.row) :
  t ∈ add_durations df -> exists rest, t = timed_of (Timed.scan t) rest.
Proof.
  intros Ht. apply list_elem_of_lookup in Ht as [i Hi].
  rewrite add_durations_lookup in Hi.
  destruct (df !! i) as [r|]; simpl in Hi; [|discriminate].
  injection Hi as <-. now exists (drop (S i) df).
Qed.

Lemma duration_sec_nonneg (r : Resi.row) (rest : list Resi.row) : 0 <= duration_sec r rest.
Proof. unfold duration_sec, clip_lower0. lia. Qed.

Lemma duration_sec_no_timestamp (r : Resi.row) (rest : list Resi.row) :
  SCAN_DT r = None -> duration_sec r rest = 0.
Proof.
  unfold duration_sec. intros ->.
  now destruct (SCAN_NEXT r rest).
Qed.

Lemma duration_sec_no_next (r : Resi.row) (rest : list Resi.row) :
  SCAN_NEXT r rest = None -> duration_sec r rest = 0.
Proof. unfold duration_sec. now intros ->. Qed.

(** A row after which no row of its group comes has no next timestamp. *)
Lemma SCAN_NEXT_last (r : Resi.row) (rest : list Resi.row) :
  (forall r', r' ∈ rest -> group_key r' ≠ group_key r) -> SCAN_NEXT r rest = None.
Proof.
  intros Hlast. unfold SCAN_NEXT.
  destruct (group_key r) as [k|] eqn:Hk; [|reflexivity].
  destruct (List.find (in_group k) rest) as [r'|] eqn:Hf; [exfalso|reflexivity].
  apply find_some in Hf as [Hin Hg]. apply list_elem_of_In in Hin.
  unfold in_group in Hg. apply bool_decide_eq_true in Hg.
  now apply (Hlast r' Hin).
Qed.

(** In the sorted frame, the next timestamp of a row followed by a row of
    its group is the timestamp of that row. *)
Lemma SCAN_NEXT_sorted (r r' : Resi.row) (rest : list Resi.row) :
  StronglySorted row_le (r :: r' :: rest) ->
  is_Some (group_key r) -> group_key r' = group_key r ->
  SCAN_NEXT r (r' :: rest) = SCAN_DT r'.
Proof.
  intros Hs [k Hk] Heq. unfold SCAN_NEXT. rewrite Hk.
  rewrite (find_next_sorted r (r' :: rest) k Hs Hk).
  unfold in_group. rewrite bool_decide_eq_true_2; [reflexivity|congruence].
Qed.

(** C3.  The frame is sorted by operator, day and timestamp and keeps all
    rows.  Every duration is non-negative, and it is 0 for a row whose
    timestamp did not parse.  For a row and the next row of its group
    (the first later row with the same operator and day), the timestamps
    are ascending and the duration is the difference, clamped at 0; it is
    0 when the next row has no timestamp.  The last row of a group, and a
    row in no group, get 0. *)
Theorem scan_durations (resi : list Resi.row) :
  (sorted_resi resi ≡ₚ clean_resi <$> resi /\
   StronglySorted row_le (sorted_resi resi) /\
   Timed.scan <$> timed_resi resi = sorted_resi resi) /\
  (forall t, t ∈ timed_resi resi ->
     0 <= Timed.DURASI_SEC t /\
     (SCAN_DT (Timed.scan t) = None -> Timed.DURASI_SEC t = 0)) /\
  (forall (i j : nat) t t',
     (i < j)%nat ->
     timed_resi resi !! i = Some t -> timed_resi resi !! j = Some t' ->
     is_Some (group_key (Timed.scan t)) ->
     group_key (Timed.scan t') = group_key (Timed.scan t) ->
     (forall (m : nat) tm, (i < m < j)%nat -> timed_resi resi !! m = Some tm ->
        group_key (Timed.scan tm) ≠ group_key (Timed.scan t)) ->
     (forall a b, SCAN_DT (Timed.scan t) = Some a -> SCAN_DT (Timed.scan t') = Some b ->
        a <= b /\ Timed.DURASI_SEC t = Z.max (b - a) 0) /\
     (SCAN_DT (Timed.scan t') = None -> Timed.DURASI_SEC t = 0)) /\
  (forall (i : nat) t,
     timed_resi resi !! i = Some t ->
     (forall (j : nat) t', (i < j)%nat -> timed_resi resi !! j = Some t' ->
        group_key (Timed.scan t') ≠ group_key (Timed.scan t)) ->
     Timed.DURASI_SEC t = 0) /\
  (forall t, t ∈ timed_resi resi ->
     group_key (Timed.scan t) = None -> Timed.DURASI_SEC t = 0).
Proof.
  pose proof (sort_values_sorted (clean_resi <$> resi)) as Hsorted.
  fold (sorted_resi resi) in Hsorted.
  unfold timed_resi. set (df := sorted_resi resi) in *.
  split; [|split; [|split; [|split]]].
  - split; [apply sort_values_Permutation|]. split; [exact Hsorted|apply add_durations_scan].
  - intros t Ht. apply add_durations_elem in Ht as [rest ->]. simpl.
    split; [apply duration_sec_nonneg|apply duration_sec_no_timestamp].
  - intros i j t t' Hij Hi Hj Hsome Heq Hbetween.
    assert (Hlook : forall (m : nat) tm, add_durations df !! m = Some tm ->
              df !! m = Some (Timed.scan tm) /\ tm = timed_of (Timed.scan tm) (drop (S m) df)).
    { intros m tm Hm. rewrite add_durations_lookup in Hm.
      destruct (df !! m) as [rm|]; simpl in Hm; [|discriminate].
      injection Hm as <-. auto. }
    destruct (Hlook _ _ Hi) as [Hri Hti]. destruct (Hlook _ _ Hj) as [Hrj Htj].
    set (r := Timed.scan t) in *. set (r' := Timed.scan t') in *.
    assert (j = S i) as ->.
    { destruct (decide (j = S i)) as [|Hne]; [assumption|exfalso].
      assert (Hlt : (S i < length df)%nat).
      { apply lookup_lt_Some in Hrj. lia. }
      apply lookup_lt_is_Some_2 in Hlt as [rm Hrm].
      assert (Hm : add_durations df !! S i = Some (timed_of rm (drop (S (S i)) df))).
      { rewrite add_durations_lookup, Hrm. reflexivity. }
      apply (Hbetween (S i) _ ltac:(lia) Hm). simpl.
      destruct Hsome as [k Hk]. rewrite Hk.
      apply (group_between r rm r' k).
      - apply (StronglySorted_lookup_lt _ df i (S i)); auto.
      - apply (StronglySorted_lookup_lt _ df (S i) j); auto. lia.
      - exact Hk.
      - congruence. }
    assert (Hd : drop i df = r :: r' :: drop (S (S i)) df).
    { rewrite (drop_S _ _ _ Hri). f_equal. apply drop_S. exact Hrj. }
    assert (Hnext : SCAN_NEXT r (drop (S i) df) = SCAN_DT r').
    { rewrite (drop_S _ _ _ Hrj). apply SCAN_NEXT_sorted; auto.
      rewrite <- Hd. now apply StronglySorted_drop. }
    assert (Hle : row_le r r').
    { apply (StronglySorted_lookup_lt _ df i (S i)); auto. }
    pose proof (group_ascending r r' Hle Hsome (eq_sym Heq)) as Hasc.
    rewrite Hti. simpl. unfold duration_sec. rewrite Hnext. split.
    + intros a b Ha Hb. rewrite Ha, Hb in *. simpl in *.
      unfold leb_of in Hasc. unfold clip_lower0. split; [|reflexivity].
      simpl in Hasc. destruct (Z.compare_spec a b); try discriminate; lia.
    + intros ->. reflexivity.
  - intros i t Hi Hlast.
    rewrite add_durations_lookup in Hi.
    destruct (df !! i) as [r|] eqn:Hri; simpl in Hi; [|discriminate].
    injection Hi as <-. simpl. apply duration_sec_no_next, SCAN_NEXT_last.
    intros r' Hr'. apply list_elem_of_lookup in Hr' as [n Hn].
    rewrite lookup_drop in Hn.
    apply (Hlast (S i + n)%nat (timed_of r' (drop (S (S i + n)) df))); [lia|].
    rewrite add_durations_lookup, Hn. reflexivity.
  - intros t Ht Hnone. apply add_durations_elem in Ht as [rest ->]. simpl in *.
    apply duration_sec_no_next. unfold SCAN_NEXT. now rewrite Hnone.
Qed.

(** ** Ingestion of the quantities *)

Example coerce_qty_text : coerce_qty (CText "dua") = 0.
Proof. reflexivity. Qed.

Example coerce_qty_float : coerce_qty (CNum (27 # 10)) = 2.
Proof. reflexivity. Qed.



(** ** The aggregates *)

Lemma elem_of_group_keys (df : list Joined.row) (k : string) :
  k ∈ group_keys df <-> k ∈ Joined.NO_RESI <$> df.
Proof.
  unfold group_keys. rewrite sort_by_Permutation. apply elem_of_remove_dups.
Qed.

Lemma NoDup_group_keys (df : list Joined.row) : NoDup (group_keys df).
Proof.
  unfold group_keys. rewrite sort_by_Permutation. apply NoDup_remove_dups.
Qed.

Lemma elem_of_aggregate special hm (df : list Joined.row) (a : Agg.row) :
  a ∈ aggregate special hm df <->
  exists k, a = agg_row special hm df k /\ k ∈ Joined.NO_RESI <$> df.
Proof.
  unfold aggregate. rewrite list_elem_of_fmap.
  split; intros (k & Ha & Hk); exists k; split; auto; now apply elem_of_group_keys.
Qed.

Lemma elem_of_group_of (k : string) (df : list Joined.row) (j : Joined.row) :
  j ∈ group_of k df <-> Joined.NO_RESI j = k /\ j ∈ df.
Proof. unfold group_of. now rewrite list_elem_of_filter. Qed.

Lemma group_of_cons (k : string) (df : list Joined.row) :
  k ∈ Joined.NO_RESI <$> df -> exists j g, group_of k df = j :: g.
Proof.
  intros Hk. apply list_elem_of_fmap in Hk as (j & Hkj & Hj). subst k.
  destruct (group_of (Joined.NO_RESI j) df) as [|j' g] eqn:Hg; [|eauto].
  assert (Hin : j ∈ group_of (Joined.NO_RESI j) df) by now apply elem_of_group_of.
  rewrite Hg in Hin. now apply not_elem_of_nil in Hin.
Qed.

Lemma sku_unik_pos (g : list Joined.row) : g ≠ [] -> 1 <= sku_unik g.
Proof.
  intros Hg. destruct g as [|j g]; [congruence|].
  unfold sku_unik. enough (size (sku_set (j :: g)) ≠ 0%nat) by lia.
  intros H0. apply size_empty_iff in H0.
  assert (Hin : Joined.SKU_NORM j ∈ sku_set (j :: g)).
  { unfold sku_set. apply elem_of_list_to_set. rewrite fmap_cons. apply list_elem_of_here. }
  rewrite H0 in Hin. now apply not_elem_of_empty in Hin.
Qed.

Lemma only_sku_norm_one (g : list Joined.row) :
  sku_unik g = 1 ->
  exists c, only_sku_norm g = Some c /\ sku_set g = {[ c ]} /\
            forall j, j ∈ g -> Joined.SKU_NORM j = c.
Proof.
  unfold sku_unik, only_sku_norm. intros H1.
  assert (Hs : size (sku_set g) = 1%nat) by lia.
  rewrite decide_True by exact Hs.
  apply size_1_elem_of in Hs as [c Hc]. apply leibniz_equiv in Hc.
  exists c. rewrite Hc, elements_singleton. split; [reflexivity|]. split; [reflexivity|].
  intros j Hj.
  assert (Hin : Joined.SKU_NORM j ∈ sku_set g).
  { unfold sku_set. apply elem_of_list_to_set. now apply list_elem_of_fmap_2. }
  rewrite Hc in Hin. now apply elem_of_singleton in Hin.
Qed.

(** ** Order type *)

Example classify_unknown :
  classify special_set_norm_default None 5 None = "Tidak Diketahui".
Proof. reflexivity. Qed.

Example classify_special :
  classify special_set_norm_default (Some 1) 40 (Some "C222-AK328-7") = "Spesial".
Proof. reflexivity. Qed.

Example classify_mixed :
  classify special_set_norm_default (Some 2) 3 None = "Biasa" /\
  classify special_set_norm_default (Some 2) 4 None = "Campuran".
Proof. split; reflexivity. Qed.

(** C1.  [classify] answers "Tidak Diketahui" on a missing count; on the
    rows of [agg] the count is never missing and at least 1; when it is 1
    the shipment has one normalized code [c], and the type is "Spesial"
    when [c] is in the special set, "Satuan" otherwise; when it is more
    than 1 the type is "Biasa" for a total quantity of at most 3 and
    "Campuran" above. *)
Theorem order_type_rule (special : gset string) (hm : gmap string Q)
    (df : list Joined.row) (a : Agg.row) :
  a ∈ aggregate special hm df ->
  (forall qty_t only_norm, classify special None qty_t only_norm = "Tidak Diketahui") /\
  Agg.PESANAN_RES a =
    classify special (Agg.SKU_UNIK a) (Agg.QTY_TOTAL a) (Agg.ONLY_SKU_NORM a) /\
  Agg.QTY_TOTAL a = qty_total (group_of (Agg.NO_RESI a) df) /\
  exists n : Z,
    Agg.SKU_UNIK a = Some n /\
    n = Z.of_nat (size (sku_set (group_of (Agg.NO_RESI a) df))) /\
    ((n = 1 /\
      exists c, Agg.ONLY_SKU_NORM a = Some c /\
        (forall j, j ∈ group_of (Agg.NO_RESI a) df -> Joined.SKU_NORM j = c) /\
        (c ∈ special -> Agg.PESANAN_RES a = "Spesial") /\
        (c ∉ special -> Agg.PESANAN_RES a = "Satuan"))
     \/
     (1 < n /\
      (Agg.QTY_TOTAL a <= 3 -> Agg.PESANAN_RES a = "Biasa") /\
      (3 < Agg.QTY_TOTAL a -> Agg.PESANAN_RES a = "Campuran"))).
Proof.
  intros Ha. apply elem_of_aggregate in Ha as (k & -> & Hk).
  destruct (group_of_cons k df Hk) as (j0 & g0 & Hg).
  split; [reflexivity|]. split; [reflexivity|]. split; [reflexivity|].
  unfold agg_row; simpl.
  set (g := group_of k df) in *.
  exists (sku_unik g). split; [reflexivity|]. split; [reflexivity|].
  assert (Hpos : 1 <= sku_unik g) by (apply sku_unik_pos; rewrite Hg; discriminate).
  destruct (decide (sku_unik g = 1)) as [H1|Hn1].
  - left. split; [assumption|].
    destruct (only_sku_norm_one g H1) as (c & Hc & _ & Hall).
    exists c. split; [assumption|]. split; [assumption|].
    unfold classify. rewrite H1, Hc. simpl.
    split; intros Hin; [rewrite decide_True|rewrite decide_False]; auto.
  - right. split; [lia|]. unfold classify.
    destruct (Z.eqb_spec (sku_unik g) 1); [contradiction|].
    split; intros Hq.
    + destruct (Z.leb_spec (qty_total g) 3); [reflexivity|lia].
    + destruct (Z.leb_spec (qty_total g) 3); [lia|reflexivity].
Qed.

(** ** Status *)

(** Scenario: bonus 60 s, quantity 2, duration 100 s.  The bonus widens the
    allowed time (120 s): the status is OK.  Added to the duration instead,
    as the docstring of the routine words it, it would be late. *)
Example status_bonus_on_allowed :
  status_of (actual_sec (Some 100)) (allowed_sec 2 60) = "OK" /\
  Qle_bool (inject_Z 100 + 60) (inject_Z 2 * 30) = false.
Proof. split; reflexivity. Qed.





(** ** Handling bonus *)




Example sum_bonus_once :
  sum_bonus handling_map_norm_default ["BM-AKS28-1"; "X1"; "BM-AKS28-1"] = 60%Q.
Proof. vm_compute. reflexivity. Qed.


(** ** The join *)

Lemma elem_of_merge_inner (left : list Timed.row) (right : list Sku.row) (j : Joined.row) :
  j ∈ merge_inner left right <->
  fst j ∈ left /\ snd j ∈ right /\ Sku.NO_RESI (snd j) = Timed.NO_RESI (fst j).
Proof.
  unfold merge_inner. rewrite list_elem_of_bind. split.
  - intros (l & Hj & Hl). apply list_elem_of_fmap in Hj as (r & -> & Hr).
    apply list_elem_of_filter in Hr as [Hk Hr]. simpl. auto.
  - intros (Hl & Hr & Hk). exists (fst j). split; [|assumption].
    apply list_elem_of_fmap. exists (snd j). split; [now destruct j|].
    apply list_elem_of_filter. auto.
Qed.

Lemma elem_of_timed_resi (resi : list Resi.row) (r : Resi.row) :
  (exists t, t ∈ timed_resi resi /\ Timed.scan t = r) <-> r ∈ clean_resi <$> resi.
Proof.
  unfold timed_resi, sorted_resi. split.
  - intros (t & Ht & <-). apply (list_elem_of_fmap_2 Timed.scan) in Ht.
    rewrite add_durations_scan in Ht. now rewrite sort_values_Permutation in Ht.
  - intros Hr. rewrite <- (sort_values_Permutation (clean_resi <$> resi)) in Hr.
    rewrite <- add_durations_scan in Hr.
    apply list_elem_of_fmap in Hr as (t & -> & Ht). eauto.
Qed.

Lemma project_NO_RESI (agg : list Agg.row) (j : Joined.row) :
  Out.NO_RESI (project agg j) = Joined.NO_RESI j.
Proof. reflexivity. Qed.

(** C5.  A shipment id labels a row of the returned frame exactly when it
    is, stripped, an id of the scan table and an id of the contents table:
    every output id is in both tables, and an id of one table only gives no
    row. *)
Theorem join_is_inner (resi : list Resi.row) (sku : list SkuRaw.row)
    (special : option (list (option string)))
    (handling : option (list (string * num_cell))) (k : string) :
  (exists o, o ∈ build_joined_df resi sku special handling /\ Out.NO_RESI o = k) <->
  k ∈ (fun r => Str.strip (Resi.NO_RESI r)) <$> resi /\
  k ∈ (fun r => Str.strip (SkuRaw.NO_RESI r)) <$> sku.
Proof.
  unfold build_joined_df, joined_df. split.
  - intros (o & Ho & <-). apply list_elem_of_fmap in Ho as (j & -> & Hj).
    rewrite project_NO_RESI. apply elem_of_merge_inner in Hj as (Hl & Hr & Hk).
    split.
    + assert (Hs : Timed.scan (fst j) ∈ clean_resi <$> resi).
      { apply elem_of_timed_resi. eauto. }
      apply list_elem_of_fmap in Hs as (r & Hs & Hr').
      apply list_elem_of_fmap. exists r. split; [|assumption].
      unfold Joined.NO_RESI, Timed.NO_RESI. now rewrite Hs.
    + apply list_elem_of_fmap in Hr as (r & Hs & Hr').
      apply list_elem_of_fmap. exists r. split; [|assumption].
      unfold Joined.NO_RESI. rewrite <- Hk, Hs. reflexivity.
  - intros [Hr Hs].
    apply list_elem_of_fmap in Hr as (r & -> & Hr).
    apply list_elem_of_fmap in Hs as (s & Hk & Hs).
    assert (Ht : exists t, t ∈ timed_resi resi /\ Timed.scan t = clean_resi r).
    { apply elem_of_timed_resi. now apply list_elem_of_fmap_2. }
    destruct Ht as (t & Ht & Hscan).
    set (j := (t, clean_sku s) : Joined.row).
    exists (project (aggregate (read_special_set special) (read_handling_map handling)
                       (merge_inner (timed_resi resi) (clean_sku <$> sku))) j).
    split.
    + apply list_elem_of_fmap_2. apply elem_of_merge_inner. simpl.
      split; [assumption|]. split; [now apply list_elem_of_fmap_2|].
      unfold Timed.NO_RESI. rewrite Hscan. simpl. now symmetry.
    + rewrite project_NO_RESI. unfold Joined.NO_RESI, Timed.NO_RESI. simpl.
      now rewrite Hscan.
Qed.

(** ** One order type and one status per shipment *)

Lemma agg_row_NO_RESI special hm (df : list Joined.row) (k : string) :
  Agg.NO_RESI (agg_row special hm df k) = k.
Proof. reflexivity. Qed.

(** The left merge of line 147 finds, for a joined row, the [agg] row of
    its shipment. *)
Lemma find_agg special hm (df : list Joined.row) (j : Joined.row) :
  j ∈ df ->
  List.find (fun a => bool_decide (Agg.NO_RESI a = Joined.NO_RESI j)) (aggregate special hm df)
  = Some (agg_row special hm df (Joined.NO_RESI j)).
Proof.
  intros Hj.
  destruct (List.find _ (aggregate special hm df)) as [a|] eqn:Hf.
  - apply find_some in Hf as [Hin Hp]. apply list_elem_of_In in Hin.
    apply bool_decide_eq_true in Hp.
    apply elem_of_aggregate in Hin as (k & -> & _).
    rewrite agg_row_NO_RESI in Hp. now subst k.
  - exfalso.
    assert (Hin : agg_row special hm df (Joined.NO_RESI j) ∈ aggregate special hm df).
    { apply elem_of_aggregate. exists (Joined.NO_RESI j). split; [reflexivity|].
      now apply list_elem_of_fmap_2. }
    apply list_elem_of_In in Hin.
    apply (find_none _ _ Hf) in Hin. rewrite agg_row_NO_RESI in Hin.
    now rewrite bool_decide_eq_true_2 in Hin.
Qed.




Lemma build_joined_df_elem (resi : list Resi.row) (sku : list SkuRaw.row)
    (special : option (list (option string)))
    (handling : option (list (string * num_cell))) (o : Out.row) :
  o ∈ build_joined_df resi sku special handling <->
  exists j, j ∈ joined_df resi sku /\
    o = Out.mk (Resi.TANGGAL_SCAN (Timed.scan (fst j))) (Resi.JAM_SCAN (Timed.scan (fst j)))
          (Resi.NAMA (Timed.scan (fst j))) (Joined.NO_RESI j)
          (Some (Agg.PESANAN_RES (agg_row (read_special_set special) (read_handling_map handling)
                                    (joined_df resi sku) (Joined.NO_RESI j))))
          (Some (Agg.STATUS_RES (agg_row (read_special_set special) (read_handling_map handling)
                                   (joined_df resi sku) (Joined.NO_RESI j))))
          (Timed.DURASI (fst j)) (Sku.SKU (snd j)) (Sku.QTY (snd j)).
Proof.
  unfold build_joined_df. rewrite list_elem_of_fmap.
  split; intros (j & H1 & H2); exists j.
  - split; [assumption|]. subst o. unfold project. now rewrite find_agg.
  - split; [|assumption]. subst o. unfold project. now rewrite find_agg.
Qed.


(** ** The columns: what is read, and what is returned *)




Lemma elem_of_setitem (c c' : string) (cols : list string) :
  c ∈ setitem c' cols <-> c = c' \/ c ∈ cols.
Proof.
  unfold setitem. destruct (decide (c' ∈ cols)) as [Hin|Hnin].
  - split; [auto|]. intros [->|H]; assumption.
  - rewrite elem_of_app, list_elem_of_singleton. tauto.
Qed.

Lemma elem_of_drop_columns (c : string) (ds cols : list string) :
  c ∈ drop_columns ds cols <-> (c ∉ ds) /\ c ∈ cols.
Proof. unfold drop_columns. now rewrite list_elem_of_filter. Qed.

Lemma elem_of_rename (d : gmap string string) (cols : list string) (c : string) :
  c ∈ rename d cols <-> exists c0, c0 ∈ cols /\ c = default c0 (d !! c0).
Proof.
  unfold rename. rewrite list_elem_of_fmap.
  split; intros (c0 & H1 & H2); exists c0; auto.
Qed.

Lemma dict_of_lookup_Some (kvs : list (string * string)) (k v : string) :
  dict_of kvs !! k = Some v -> (k, v) ∈ kvs.
Proof.
  unfold dict_of.
  enough (H : forall m : gmap string string,
             foldl (fun m kv => <[ fst kv := snd kv ]> m) m kvs !! k = Some v ->
             (k, v) ∈ kvs \/ m !! k = Some v).
  { intros Hl. destruct (H ∅ Hl) as [?|He]; [assumption|].
    rewrite lookup_empty in He. discriminate. }
  induction kvs as [|[k' v'] kvs IH]; intros m; simpl; [auto|].
  intros Hl. destruct (IH _ Hl) as [Hin|Hm].
  - left. now right.
  - rewrite lookup_insert in Hm. destruct (decide (k' = k)) as [->|Hne].
    + injection Hm as ->. left. now left.
    + now right.
Qed.

(** A canonical label is absent after the renaming when the table has no
    such header and no header is mapped to it. *)
Lemma rename_absent (kvs : list (string * string)) (cols : list string) (F : string) :
  F ∉ cols ->
  (forall k, (k, F) ∈ kvs -> k ∉ cols) ->
  F ∉ rename (dict_of kvs) cols.
Proof.
  intros HF Hk Hin. apply elem_of_rename in Hin as (c0 & Hc0 & Heq).
  destruct (dict_of kvs !! c0) as [v|] eqn:Hl; simpl in Heq; subst.
  - apply dict_of_lookup_Some in Hl. now apply (Hk c0).
  - contradiction.
Qed.





Section Columns.
Variables (resi_cols sku_cols : list string) (mapping_tuple : mapping).

Let R : list string := resi_columns mapping_tuple resi_cols.
Let S : list string := sku_columns mapping_tuple sku_cols.
Let result : list stage * (exn + list string) :=
  run (build_joined_df_columns resi_cols sku_cols mapping_tuple).



(** A successful run returns [output_columns] and has finished every
    step. *)
Lemma run_success (log : list stage) (cols : list string) :
  result = (log, inr cols) -> cols = output_columns R S /\ log = all_stages.
Proof.
  unfold result, run, build_joined_df_columns. fold R S. cbv zeta.
  unfold getitem, groupby_getitem, mbind, M_bind, finished, raise, mret, M_ret.
  repeat (case_decide; simpl; try discriminate).
  intros [= <- <-]. split; reflexivity.
Qed.

End Columns.

Lemma elem_of_output_columns (R S : list string) (c : string) :
  c ∈ output_columns R S -> c ∈ projected_columns R S.
Proof.
  unfold output_columns. rewrite elem_of_app, !list_elem_of_filter. tauto.
Qed.

Lemma DURASI_SEC_not_returned (R S : list string) : "DURASI_SEC" ∉ output_columns R S.
Proof.
  intros Hin. apply elem_of_output_columns in Hin. unfold projected_columns in Hin.
  apply elem_of_drop_columns in Hin as [Hnot _]. apply Hnot. now left.
Qed.

Lemma DURASI_returned (R S : list string) : "DURASI" ∉ S -> "DURASI" ∈ output_columns R S.
Proof.
  intros HS.
  assert (H1 : "DURASI" ∈ resi_after_durations R).
  { unfold resi_after_durations. apply elem_of_drop_columns. split.
    - intros H. repeat (apply elem_of_cons in H as [H|H]; [discriminate|]).
      now apply not_elem_of_nil in H.
    - apply elem_of_setitem. now left. }
  assert (H2 : "DURASI" ∈ joined_columns R S).
  { unfold joined_columns. apply elem_of_setitem. right.
    unfold merge_columns. apply elem_of_app. left.
    eapply list_elem_of_fmap_2'; [exact H1|].
    rewrite decide_False; [reflexivity|tauto]. }
  assert (H3 : "DURASI" ∈ projected_columns R S).
  { unfold projected_columns. apply elem_of_drop_columns. split.
    - intros H. repeat (apply elem_of_cons in H as [H|H]; [discriminate|]).
      now apply not_elem_of_nil in H.
    - apply elem_of_rename. exists "DURASI". split; [|reflexivity].
      unfold merge_columns. apply elem_of_app. left.
      eapply list_elem_of_fmap_2'; [exact H2|].
      rewrite decide_False; [reflexivity|].
      intros [_ H]. repeat (apply elem_of_cons in H as [H|H]; [discriminate|]).
      now apply not_elem_of_nil in H. }
  unfold output_columns. apply elem_of_app. left.
  apply list_elem_of_filter. split; [assumption|].
  unfold preferred. do 6 right. now left.
Qed.

(** C10.  On every returned row, DURASI is the whole number of minutes in
    the seconds between the scan and the next one: the floor of
    [DURASI_SEC / 60], so 0 for a duration under a minute.  The label
    DURASI_SEC is never among the returned labels; DURASI is, unless the
    contents table has a column of that name. *)
Theorem output_duration_minutes (resi : list Resi.row) (sku : list SkuRaw.row)
    (special : option (list (option string)))
    (handling : option (list (string * num_cell)))
    (resi_cols sku_cols : list string) (mapping_tuple : mapping) :
  (forall o, o ∈ build_joined_df resi sku special handling ->
     exists t, t ∈ timed_resi resi /\
       Timed.NO_RESI t = Out.NO_RESI o /\
       Out.DURASI o = Timed.DURASI_SEC t / 60 /\
       60 * Out.DURASI o <= Timed.DURASI_SEC t < 60 * Out.DURASI o + 60 /\
       (0 < Timed.DURASI_SEC t < 60 -> Out.DURASI o = 0)) /\
  (forall log cols,
     run (build_joined_df_columns resi_cols sku_cols mapping_tuple) = (log, inr cols) ->
     ("DURASI_SEC" ∉ cols) /\
     ("DURASI" ∉ sku_columns mapping_tuple sku_cols -> "DURASI" ∈ cols)).
Proof.
  split.
  - intros o Ho. apply build_joined_df_elem in Ho as (j & Hj & ->). simpl.
    unfold joined_df in Hj. apply elem_of_merge_inner in Hj as (Ht & _ & _).
    exists (fst j). split; [assumption|]. split; [reflexivity|].
    destruct (add_durations_elem _ _ Ht) as [rest Hrest].
    rewrite Hrest. simpl.
    pose proof (Z.div_mod (duration_sec (Timed.scan (fst j)) rest) 60 ltac:(lia)) as Hdm.
    pose proof (Z.mod_pos_bound (duration_sec (Timed.scan (fst j)) rest) 60 ltac:(lia)) as Hm.
    split; [reflexivity|]. split; [lia|].
    intros Hlt. apply Z.div_small. lia.
  - intros log cols Hrun. apply run_success in Hrun as [-> _].
    split; [apply DURASI_SEC_not_returned|apply DURASI_returned].
Qed.

(** ** The header mapping: an unmapped column *)

(** A field whose mapping entry names no header of the contents table,
    in a table without a header of the canonical name, is absent after the
    renaming; likewise for the scan table. *)
Lemma unmapped_sku_absent (m : mapping) (sku_cols : list string) (F : string) :
  F ∉ strip_upper sku_cols ->
  (forall k, (k, F) ∈ [(snd (fst (fst m)), "NO RESI"); (snd (fst m), "SKU"); (snd m, "QTY")] ->
     k ∉ strip_upper sku_cols) ->
  F ∉ sku_columns m sku_cols.
Proof.
  destruct m as [[[[[[tgl jam] nama] no] sno] ssku] sqty]. simpl.
  intros HF Hk. unfold sku_columns. now apply rename_absent.
Qed.


(** ** The routine on the worked tables *)

Example df_demo_rows : length df_demo = 4%nat.
Proof. vm_compute. reflexivity. Qed.

Lemma agg_demo_elem (i : nat) (k : string) :
  aggregate special_set_norm_default handling_map_norm_default df_demo !! i = Some (agg_demo k) ->
  agg_demo k ∈ aggregate special_set_norm_default handling_map_norm_default df_demo.
Proof. apply list_elem_of_lookup_2. Qed.

(** C1 on the worked tables: shipment A2 has two codes and quantity 3. *)
Lemma order_type_rule_witness :
  agg_demo "A2" ∈ aggregate special_set_norm_default handling_map_norm_default df_demo /\
  Agg.SKU_UNIK (agg_demo "A2") = Some 2 /\
  Agg.PESANAN_RES (agg_demo "A2") = "Biasa".
Proof.
  assert (Hin : agg_demo "A2"
                ∈ aggregate special_set_norm_default handling_map_norm_default df_demo).
  { apply (agg_demo_elem 1). vm_compute. reflexivity. }
  split; [exact Hin|].
  destruct (order_type_rule _ _ _ _ Hin) as (_ & _ & _ & n & Hn & _ & Hcase).
  assert (Hn2 : Agg.SKU_UNIK (agg_demo "A2") = Some 2) by (vm_compute; reflexivity).
  split; [exact Hn2|].
  rewrite Hn2 in Hn. injection Hn as <-.
  destruct Hcase as [[H1 _]|[_ [Hle _]]]; [discriminate H1|].
  apply Hle. vm_compute. discriminate.
Defined.



(** C3 on the worked tables: after the sort the scan of A4 (08:53:20)
    comes first, followed by the scan of A1 (09:00:00): 400 s. *)
Lemma scan_durations_witness :
  exists t t',
    timed_resi resi_demo !! 0%nat = Some t /\ timed_resi resi_demo !! 1%nat = Some t' /\
    Timed.NO_RESI t = "A4" /\ Timed.NO_RESI t' = "A1" /\
    Timed.DURASI_SEC t = Z.max (118800 - 118400) 0.
Proof.
  destruct (scan_durations resi_demo) as (_ & _ & Hnext & _ & _).
  assert (H0 : exists t, timed_resi resi_demo !! 0%nat = Some t) by (vm_compute; eauto).
  assert (H1 : exists t, timed_resi resi_demo !! 1%nat = Some t) by (vm_compute; eauto).
  destruct H0 as [t H0]. destruct H1 as [t' H1]. exists t, t'.
  split; [exact H0|]. split; [exact H1|].
  pose proof (Hnext 0%nat 1%nat t t' ltac:(lia) H0 H1) as Hd.
  vm_compute in H0. vm_compute in H1. injection H0 as <-. injection H1 as <-.
  split; [reflexivity|]. split; [reflexivity|].
  apply Hd.
  - vm_compute. eauto.
  - vm_compute. reflexivity.
  - intros m tm Hm. lia.
  - vm_compute. reflexivity.
  - vm_compute. reflexivity.
Defined.



(** C10 on the worked tables: 400 s are returned as 6 minutes. *)
Lemma output_duration_minutes_witness :
  exists o t,
    build_joined_df resi_demo sku_demo None None !! 0%nat = Some o /\
    t ∈ timed_resi resi_demo /\ Timed.NO_RESI t = Out.NO_RESI o /\
    Out.DURASI o = 6 /\ 60 * 6 <= Timed.DURASI_SEC t < 60 * 6 + 60.
Proof.
  assert (H0 : exists o, build_joined_df resi_demo sku_demo None None !! 0%nat = Some o)
    by (vm_compute; eauto).
  destruct H0 as [o H0].
  destruct (output_duration_minutes resi_demo sku_demo None None [] [] ("", "", "", "", "", "", ""))
    as [Hrow _].
  destruct (Hrow o (list_elem_of_lookup_2 _ _ _ H0)) as (t & Ht & Hk & Hd & Hb & _).
  exists o, t. split; [exact H0|]. split; [exact Ht|]. split; [exact Hk|].
  assert (H6 : Out.DURASI o = 6).
  { vm_compute in H0. injection H0 as <-. reflexivity. }
  split; [exact H6|]. rewrite H6 in Hb. exact Hb.
Defined.

(** * Further properties of the code *)

(** ** Normal forms of text *)

Lemma is_space_upper (c : ascii) : Str.is_space (Str.upper_ascii c) = Str.is_space c.
Proof. destruct c as [[] [] [] [] [] [] [] []]; reflexivity. Qed.

Lemma upper_ascii_idem (c : ascii) :
  Str.upper_ascii (Str.upper_ascii c) = Str.upper_ascii c.
Proof. destruct c as [[] [] [] [] [] [] [] []]; reflexivity. Qed.

Lemma upper_idem (s : string) : Str.upper (Str.upper s) = Str.upper s.
Proof. induction s as [|c s IH]; simpl; [reflexivity|]. now rewrite upper_ascii_idem, IH. Qed.

Lemma upper_app (s t : string) : Str.upper (s +:+ t) = Str.upper s +:+ Str.upper t.
Proof. induction s as [|c s IH]; simpl; [reflexivity|]. now rewrite IH. Qed.

Lemma all_space_upper (s : string) : all_space (Str.upper s) = all_space s.
Proof. induction s as [|c s IH]; simpl; [reflexivity|]. now rewrite is_space_upper, IH. Qed.

Lemma lstrip_upper (s : string) : Str.lstrip (Str.upper s) = Str.upper (Str.lstrip s).
Proof.
  induction s as [|c s IH]; simpl; [reflexivity|].
  rewrite is_space_upper. destruct (Str.is_space c); [exact IH|reflexivity].
Qed.

Lemma rstrip_upper (s : string) : Str.rstrip (Str.upper s) = Str.upper (Str.rstrip s).
Proof.
  induction s as [|c s IH]; simpl; [reflexivity|].
  rewrite IH, is_space_upper.
  destruct (Str.rstrip s); simpl; [|reflexivity].
  now destruct (Str.is_space c).
Qed.

(** Stripping and upper-casing commute. *)
Lemma strip_upper_comm (s : string) : Str.strip (Str.upper s) = Str.upper (Str.strip s).
Proof. unfold Str.strip. now rewrite lstrip_upper, rstrip_upper. Qed.

Lemma rstrip_idem (s : string) : Str.rstrip (Str.rstrip s) = Str.rstrip s.
Proof.
  induction s as [|c s IH]; simpl; [reflexivity|].
  destruct (Str.rstrip s) as [|d t] eqn:Ht.
  - destruct (Str.is_space c) eqn:Hc; simpl; [reflexivity|]. now rewrite Hc.
  - change (Str.rstrip (String c (String d t))) with
      (match Str.rstrip (String d t) with
       | EmptyString => if Str.is_space c then EmptyString else String c EmptyString
       | u => String c u
       end).
    now rewrite IH.
Qed.

Lemma lstrip_rstrip (s : string) :
  Str.lstrip s = s -> Str.lstrip (Str.rstrip s) = Str.rstrip s.
Proof.
  destruct s as [|c s]; simpl; [reflexivity|].
  destruct (Str.is_space c) eqn:Hc.
  - intros H. exfalso.
    assert (Hlen : forall u, (String.length (Str.lstrip u) <= String.length u)%nat).
    { induction u as [|a u IHu]; simpl; [lia|]. destruct (Str.is_space a); simpl; lia. }
    specialize (Hlen s). rewrite H in Hlen. simpl in Hlen. lia.
  - intros _. destruct (Str.rstrip s); simpl; now rewrite Hc.
Qed.

Lemma lstrip_idem (s : string) : Str.lstrip (Str.lstrip s) = Str.lstrip s.
Proof.
  induction s as [|c s IH]; simpl; [reflexivity|].
  destruct (Str.is_space c) eqn:Hc; [exact IH|]. simpl. now rewrite Hc.
Qed.

Lemma strip_idem (s : string) : Str.strip (Str.strip s) = Str.strip s.
Proof.
  unfold Str.strip. rewrite (lstrip_rstrip (Str.lstrip s)) by apply lstrip_idem.
  apply rstrip_idem.
Qed.

(** X1.  [_norm] is idempotent: a normalized text is its own normal form. *)
Theorem norm_idempotent (s : string) : _norm (_norm s) = _norm s.
Proof.
  unfold _norm. rewrite (strip_upper_comm (Str.strip (Str.upper s))).
  rewrite strip_idem, <- strip_upper_comm. now rewrite upper_idem.
Qed.

Lemma lstrip_all_space (s : string) : all_space s = true -> Str.lstrip s = EmptyString.
Proof.
  induction s as [|c s IH]; simpl; [reflexivity|].
  intros H. apply andb_true_iff in H as [Hc Hs]. rewrite Hc. auto.
Qed.

Lemma rstrip_all_space (s : string) : all_space s = true -> Str.rstrip s = EmptyString.
Proof.
  induction s as [|c s IH]; simpl; [reflexivity|].
  intros H. apply andb_true_iff in H as [Hc Hs]. now rewrite (IH Hs), Hc.
Qed.

Lemma lstrip_app_space (pre s : string) :
  all_space pre = true -> Str.lstrip (pre +:+ s) = Str.lstrip s.
Proof.
  induction pre as [|c pre IH]; simpl; [reflexivity|].
  intros H. apply andb_true_iff in H as [Hc Hs]. rewrite Hc. auto.
Qed.

Lemma rstrip_app_space (s post : string) :
  all_space post = true -> Str.rstrip (s +:+ post) = Str.rstrip s.
Proof.
  intros Hp. induction s as [|c s IH]; simpl.
  - now apply rstrip_all_space.
  - now rewrite IH.
Qed.

Lemma strip_app_space (s post : string) :
  all_space post = true -> Str.strip (s +:+ post) = Str.strip s.
Proof.
  intros Hp. unfold Str.strip. induction s as [|c s IH].
  - change (Str.rstrip (Str.lstrip post) = EmptyString).
    now rewrite (lstrip_all_space post Hp).
  - change (Str.rstrip (if Str.is_space c then Str.lstrip (s +:+ post)
                        else String c s +:+ post)
            = Str.rstrip (if Str.is_space c then Str.lstrip s else String c s)).
    destruct (Str.is_space c); [exact IH|].
    apply (rstrip_app_space (String c s) post Hp).
Qed.

(** X2.  [_norm] ignores blanks around the text, whatever the text. *)
Theorem norm_ignores_surrounding_space (pre s post : string) :
  all_space pre = true -> all_space post = true ->
  _norm (pre +:+ s +:+ post) = _norm s.
Proof.
  intros Hpre Hpost. unfold _norm. rewrite !upper_app.
  unfold Str.strip at 1. rewrite lstrip_app_space by now rewrite all_space_upper.
  fold (Str.strip (Str.upper s +:+ Str.upper post)).
  apply strip_app_space. now rewrite all_space_upper.
Qed.

Lemma norm_ignores_surrounding_space_witness :
  _norm ("  " +:+ "bm-aks28-1" +:+ " ") = _norm "bm-aks28-1".
Proof. apply norm_ignores_surrounding_space; reflexivity. Defined.

(** X3.  The header normalization of the routine and of the page (strip,
    then upper) gives the normal form of [_norm] (upper, then strip), and
    its results are fixed by [_norm]. *)
Theorem strip_upper_is_norm (cols : list string) :
  strip_upper cols = _norm <$> cols /\ _norm <$> strip_upper cols = strip_upper cols.
Proof.
  assert (H : strip_upper cols = _norm <$> cols).
  { unfold strip_upper, _norm. apply list_fmap_ext. intros _ c _.
    symmetry. apply strip_upper_comm. }
  split; [exact H|]. rewrite H, <- list_fmap_compose.
  apply list_fmap_ext. intros _ c _. unfold compose, _norm.
  rewrite (strip_upper_comm (Str.strip (Str.upper c))).
  rewrite strip_idem, <- strip_upper_comm. now rewrite upper_idem.
Qed.

(** ** The suggestion is a header of the table *)

Lemma suggest_loop_elem (cols candidates : list string) (c : string) :
  _suggest_loop cols (_norm <$> cols) candidates = Some c -> c ∈ cols.
Proof.
  induction candidates as [|cand rest IH]; simpl; [discriminate|].
  destruct (index_of (_norm cand) (_norm <$> cols)) as [i|] eqn:Hi; [|exact IH].
  intros Hc. eapply list_elem_of_lookup_2. exact Hc.
Qed.

(** X4.  [_suggest] answers [None] exactly on an empty header list, and
    any header it returns is one of the list, so [cols.index] of the
    suggestion (lines 198-206) is defined whenever the table has a
    header. *)
Theorem suggest_is_a_header (cols candidates : list string) :
  (_suggest cols candidates = None <-> cols = []) /\
  (forall c, _suggest cols candidates = Some c -> c ∈ cols).
Proof.
  split.
  - unfold _suggest. split.
    + destruct (_suggest_loop cols (_norm <$> cols) candidates); [discriminate|].
      destruct cols; [reflexivity|discriminate].
    + intros ->. induction candidates as [|cand rest IH]; simpl; [reflexivity|exact IH].
  - intros c. unfold _suggest.
    destruct (_suggest_loop cols (_norm <$> cols) candidates) as [c'|] eqn:Hl.
    + intros [= <-]. eapply suggest_loop_elem; eauto.
    + destruct cols as [|x cols]; simpl; [discriminate|].
      intros [= <-]. now left.
Qed.

Lemma suggest_is_a_header_witness :
  "QTY" ∈ ["NO RESI"; "QTY"].
Proof.
  apply (proj2 (suggest_is_a_header ["NO RESI"; "QTY"] ["QTY"; "KUANTITAS"])).
  reflexivity.
Defined.

(** ** The optional tables *)

Lemma foldl_insert_other (rows : list (string * num_cell)) (m : gmap string Q) (k : string) :
  (forall s c, (s, c) ∈ rows -> _norm s ≠ k) ->
  foldl (fun m kv => <[ _norm (fst kv) := default 0%Q (to_numeric (snd kv)) ]> m) m rows !! k
  = m !! k.
Proof.
  revert m. induction rows as [|[s c] rows IH]; intros m Hk; simpl; [reflexivity|].
  rewrite IH.
  - apply lookup_insert_ne. apply (Hk s c). now left.
  - intros s' c' Hin. apply (Hk s' c'). now right.
Qed.

(** X5.  The handling map read from a file holds, for a code, the bonus of
    the last row with that normalized code (0 when the bonus cell is
    empty or not a number), and nothing for a code no row has. *)
Theorem read_handling_map_last_row (rows : list (string * num_cell)) :
  (forall k, (forall s c, (s, c) ∈ rows -> _norm s ≠ k) ->
     read_handling_map (Some rows) !! k = None) /\
  (forall pre s c post,
     rows = pre ++ (s, c) :: post ->
     (forall s' c', (s', c') ∈ post -> _norm s' ≠ _norm s) ->
     read_handling_map (Some rows) !! _norm s = Some (default 0%Q (to_numeric c))).
Proof.
  unfold read_handling_map. split.
  - intros k Hk. rewrite foldl_insert_other by assumption. apply lookup_empty.
  - intros pre s c post -> Hpost. rewrite foldl_app. simpl.
    rewrite foldl_insert_other by assumption. apply lookup_insert_eq.
Qed.

Lemma read_handling_map_last_row_witness :
  read_handling_map (Some [("bm-1", CNum 10); (" BM-1 ", CNum 45); ("x", CBlank)]) !! _norm " BM-1 "
  = Some (default 0%Q (to_numeric (CNum 45))).
Proof.
  apply (proj2 (read_handling_map_last_row
                  [("bm-1", CNum 10); (" BM-1 ", CNum 45); ("x", CBlank)])
           [("bm-1", CNum 10)] " BM-1 " (CNum 45) [("x", CBlank)]).
  - reflexivity.
  - intros s' c' Hin. apply list_elem_of_singleton in Hin. injection Hin as -> ->.
    vm_compute. discriminate.
Defined.

Lemma elem_of_read_special_set (col : list (option string)) (x : string) :
  x ∈ read_special_set (Some col) <-> exists s, Some s ∈ col /\ _norm s = x.
Proof.
  unfold read_special_set. rewrite elem_of_list_to_set, list_elem_of_fmap.
  split.
  - intros (s & -> & Hs). apply list_elem_of_omap in Hs as (o & Ho & Heq).
    simpl in Heq. subst o. eauto.
  - intros (s & Hs & <-). exists s. split; [reflexivity|].
    apply list_elem_of_omap. exists (Some s). auto.
Qed.

(** X6.  With a special-item file, a shipment with one distinct code is
    "Spesial" exactly when some non-empty cell of the file has the same
    normal form as that code: letter case and surrounding blanks of the
    file's cells and of the SKU cells do not matter. *)
Theorem special_file_match (col : list (option string)) (qty_t : Z) (sku : string) :
  classify (read_special_set (Some col)) (Some 1) qty_t (Some (_norm sku)) = "Spesial"
  <-> exists s, Some s ∈ col /\ _norm s = _norm sku.
Proof.
  rewrite <- elem_of_read_special_set. unfold classify. simpl.
  case_decide as Hd.
  - split; intros _; [exact Hd|reflexivity].
  - split; intros H; [discriminate H|]. exfalso. exact (Hd H).
Qed.

(** ** More on the sort and the durations *)

Lemma sort_by_sorted_id {A : Type} (leb : A -> A -> bool) (l : list A) :
  StronglySorted (fun a b => leb a b = true) l -> sort_by leb l = l.
Proof.
  induction 1 as [|x l Hs IH Hx]; [reflexivity|].
  unfold sort_by in *. simpl. rewrite IH.
  destruct l as [|y l]; simpl; [reflexivity|].
  apply Forall_inv in Hx. now rewrite Hx.
Qed.

(** X7.  Sorting the scan frame twice is sorting it once: the sorted
    frame is a fixed point of [sort_values], for any input order. *)
Theorem sort_values_idempotent (df : list Resi.row) :
  sort_values (sort_values df) = sort_values df.
Proof. apply sort_by_sorted_id. apply sort_values_sorted. Qed.

Lemma add_durations_elem_in (df : list Resi.row) (t : Timed.row) :
  t ∈ add_durations df ->
  exists rest, t = timed_of (Timed.scan t) rest /\ Timed.scan t ∈ df /\
               forall r', r' ∈ rest -> r' ∈ df.
Proof.
  induction df as [|r df IH]; simpl.
  - intros H. now apply not_elem_of_nil in H.
  - intros H. apply elem_of_cons in H as [->|H].
    + exists df. simpl. split; [reflexivity|]. split; [now left|]. intros r' Hr'. now right.
    + destruct (IH H) as (rest & Ht & Hs & Hrest). exists rest.
      split; [assumption|]. split; [now right|]. intros r' Hr'. right. auto.
Qed.

Lemma group_key_TGL_NORM (r : Resi.row) (k : string * Z) :
  group_key r = Some k -> TGL_NORM r = Some (snd k).
Proof.
  unfold group_key. destruct (Resi.NAMA r), (TGL_NORM r); intros [= <-]; reflexivity.
Qed.

Lemma duration_sec_lt_day (r : Resi.row) (rest : list Resi.row) :
  (forall j, Resi.JAM_SCAN r = Some j -> 0 <= j) ->
  (forall r' j, r' ∈ rest -> Resi.JAM_SCAN r' = Some j -> j < 86400) ->
  duration_sec r rest < 86400.
Proof.
  intros Hr Hrest. unfold duration_sec, SCAN_NEXT, clip_lower0.
  destruct (group_key r) as [k|] eqn:Hk; [|simpl; lia].
  destruct (List.find (in_group k) rest) as [r'|] eqn:Hf; [|simpl; lia].
  apply find_some in Hf as [Hin Hg]. apply list_elem_of_In in Hin.
  unfold in_group in Hg. apply bool_decide_eq_true in Hg.
  apply group_key_TGL_NORM in Hk, Hg. unfold SCAN_DT. rewrite Hk, Hg.
  destruct (Resi.JAM_SCAN r') as [j'|] eqn:Hj'; [|simpl; lia].
  destruct (Resi.JAM_SCAN r) as [j|] eqn:Hj; [|simpl; lia].
  simpl. specialize (Hr j eq_refl). specialize (Hrest r' j' Hin Hj'). lia.
Qed.

(** X8.  When every parsed scan time is a time of day (0 to 86399
    seconds), no duration reaches a day: [DURASI_SEC < 86400] and
    [DURASI < 1440] on every row, because a row and its next row share the
    date. *)
Theorem duration_within_day (resi : list Resi.row) :
  (forall r j, r ∈ resi -> Resi.JAM_SCAN r = Some j -> 0 <= j < 86400) ->
  forall t, t ∈ timed_resi resi ->
    Timed.DURASI_SEC t < 86400 /\ Timed.DURASI t < 1440.
Proof.
  intros Hjam t Ht. unfold timed_resi in Ht.
  apply add_durations_elem_in in Ht as (rest & Heq & Hs & Hrest).
  assert (Hin : forall r' j, r' ∈ sorted_resi resi -> Resi.JAM_SCAN r' = Some j ->
                  0 <= j < 86400).
  { intros r' j Hr' Hj. unfold sorted_resi in Hr'.
    rewrite sort_values_Permutation in Hr'.
    apply list_elem_of_fmap in Hr' as (r0 & -> & Hr0). apply (Hjam r0 j Hr0 Hj). }
  assert (Hd : duration_sec (Timed.scan t) rest < 86400).
  { apply duration_sec_lt_day.
    - intros j Hj. apply (Hin _ _ Hs Hj).
    - intros r' j Hr' Hj. apply (Hin r' j (Hrest r' Hr') Hj). }
  rewrite Heq. simpl. split; [exact Hd|].
  apply Z.div_lt_upper_bound; lia.
Qed.

Lemma duration_within_day_witness :
  exists t, timed_resi resi_demo !! 0%nat = Some t /\
            Timed.DURASI_SEC t < 86400 /\ Timed.DURASI t < 1440.
Proof.
  assert (H0 : exists t, timed_resi resi_demo !! 0%nat = Some t) by (vm_compute; eauto).
  destruct H0 as [t H0]. exists t. split; [exact H0|].
  apply (duration_within_day resi_demo).
  - intros r j Hr Hj. unfold resi_demo in Hr.
    repeat (apply elem_of_cons in Hr as [->|Hr]);
      try (now apply not_elem_of_nil in Hr);
      simpl in Hj; injection Hj as <-; lia.
  - eapply list_elem_of_lookup_2. exact H0.
Defined.

Lemma duration_sec_singleton (r : Resi.row) : duration_sec r [] = 0.
Proof. unfold duration_sec, SCAN_NEXT. now destruct (group_key r). Qed.

Lemma telescope (k : string * Z) (l : list Resi.row) :
  StronglySorted row_le l ->
  Forall (fun r => group_key r = Some k /\ is_Some (SCAN_DT r)) l ->
  forall r0 a, head l = Some r0 -> SCAN_DT r0 = Some a ->
  exists rl b, last l = Some rl /\ SCAN_DT rl = Some b /\
    foldr Z.add 0 (Timed.DURASI_SEC <$> add_durations l) = b - a.
Proof.
  induction l as [|r l IH]; intros Hs Hall r0 a Hh Ha; [discriminate|].
  simpl in Hh. injection Hh as <-.
  destruct l as [|r' l].
  - exists r, a. simpl. rewrite duration_sec_singleton. repeat split; auto. lia.
  - pose proof (Forall_inv Hall) as [Hk _].
    pose proof (Forall_inv (Forall_inv_tail Hall)) as [Hk' [a' Ha']].
    pose proof (StronglySorted_inv Hs) as [Hs' Hle]. apply Forall_inv in Hle.
    destruct (IH Hs' (Forall_inv_tail Hall) r' a' eq_refl Ha') as (rl & b & Hl & Hb & Hsum).
    exists rl, b. split; [exact Hl|]. split; [exact Hb|].
    assert (E : foldr Z.add 0 (Timed.DURASI_SEC <$> add_durations (r :: r' :: l))
                = duration_sec r (r' :: l)
                  + foldr Z.add 0 (Timed.DURASI_SEC <$> add_durations (r' :: l)))
      by reflexivity.
    rewrite E, Hsum. unfold duration_sec.
    rewrite (SCAN_NEXT_sorted r r' l Hs) by (rewrite Hk; eauto || congruence).
    rewrite Ha, Ha'. simpl. unfold clip_lower0.
    assert (Hasc : leb_of (opt_cmp Z.compare) (SCAN_DT r) (SCAN_DT r') = true).
    { apply group_ascending; [exact Hle|rewrite Hk; eauto|congruence]. }
    rewrite Ha, Ha' in Hasc. unfold leb_of in Hasc. simpl in Hasc.
    destruct (Z.compare_spec a a'); try discriminate; lia.
Qed.

(** X9.  For scans of one operator on one day whose timestamps all
    parse, the durations add up to the time from the first to the last
    scan of the sorted frame. *)
Theorem group_durations_telescope (resi : list Resi.row) (k : string * Z)
    (first : Resi.row) :
  (forall r, r ∈ resi -> group_key r = Some k /\ is_Some (SCAN_DT r)) ->
  head (sorted_resi resi) = Some first ->
  exists (final : Resi.row) (a b : Z),
    last (sorted_resi resi) = Some final /\
    SCAN_DT first = Some a /\ SCAN_DT final = Some b /\
    foldr Z.add 0 (Timed.DURASI_SEC <$> timed_resi resi) = b - a.
Proof.
  intros Hall Hh.
  assert (Hall' : Forall (fun r => group_key r = Some k /\ is_Some (SCAN_DT r))
                    (sorted_resi resi)).
  { apply Forall_forall. intros r Hr. unfold sorted_resi in Hr.
    rewrite sort_values_Permutation in Hr.
    apply list_elem_of_fmap in Hr as (r0 & -> & Hr0). apply (Hall r0 Hr0). }
  assert (Hf : first ∈ sorted_resi resi).
  { destruct (sorted_resi resi); [discriminate|]. injection Hh as <-. now left. }
  rewrite Forall_forall in Hall'. destruct (Hall' first Hf) as [_ [a Ha]].
  rewrite <- Forall_forall in Hall'.
  destruct (telescope k (sorted_resi resi) (sort_values_sorted _) Hall' first a Hh Ha)
    as (rl & b & Hl & Hb & Hsum).
  exists rl, a, b. auto.
Qed.
